(** * Change detection and retention sweeping of the content monitor

    A shallow embedding of the reconciliation and cleanup logic of
    [.github/scripts/monitor_repo_directory.py],
    [.github/scripts/monitor_rss_feed.py] and
    [.github/scripts/cleanup_content.py], with the properties the
    specification states about them.

    Conventions of the embedding.
    - A JSON object used as a table (path -> metadata) is a [gmap string _];
      a JSON object used as a struct is a record whose fields are options
      ([None]: the key is absent, which is what [dict.get] observes).  Field
      values carry the JSON types the monitors write (sizes are integers,
      hashes and dates are strings).
    - A [datetime] is a count of microseconds, either naive or
      timezone-aware; Python refuses to compare or subtract a naive and an
      aware value ([TypeError]).
    - The wall clock is a sequence of readings; every [datetime.now()]
      consumes one reading, so the functions that read the clock thread the
      index of the next reading.
    - Library functions whose code is not part of the repository (date
      parsing and printing, SHA-256, the JSON codec) are fields of a
      [Platform] record.
    - The file system is a table from path to file text, together with the
      set of paths on which a write or an unlink raises.
    - A loop over a table visits its items in the order of [map_to_list];
      Python visits them in insertion order.  No statement below depends
      on the order.
    - [print] statements are left out. *)

From Stdlib Require Import ZArith Lia Ascii String.
From stdpp Require Import base option list gmap strings fin_maps sets sorting pretty.

(** ** Python values *)

Module py.

(** [datetime]: microseconds since an epoch; [Aware] values carry a UTC
    offset and are kept apart from the naive ones. *)
Inductive datetime : Type :=
| Naive (us : Z)
| Aware (us : Z).

(** The exceptions the scripts catch or let escape. *)
Inductive exn : Type :=
| ValueError
| TypeError
| OSError.

(** The outcome of a statement that may raise. *)
Inductive result (A : Type) : Type :=
| Ok (a : A)
| Raise (e : exn).
Arguments Ok {A} a.
Arguments Raise {A} e.

Definition day_us : Z := 86400 * 1000000.

(** [timedelta(days=n)], in microseconds. *)
Definition timedelta_days (n : Z) : Z := n * day_us.

(** [td.days]: timedeltas are normalised with a non-negative remainder, so
    the day count is the floor. *)
Definition days (td : Z) : Z := td / day_us.

(** [a < b] on datetimes. *)
Definition dt_lt (a b : datetime) : result bool :=
  match a, b with
  | Naive x, Naive y => Ok (bool_decide (x < y)%Z)
  | Aware x, Aware y => Ok (bool_decide (x < y)%Z)
  | _, _ => Raise TypeError
  end.

(** [a - b] on datetimes, a timedelta. *)
Definition dt_sub (a b : datetime) : result Z :=
  match a, b with
  | Naive x, Naive y => Ok (x - y)%Z
  | Aware x, Aware y => Ok (x - y)%Z
  | _, _ => Raise TypeError
  end.

(** [d - td] for a datetime and a timedelta. *)
Definition dt_minus (d : datetime) (td : Z) : datetime :=
  match d with
  | Naive x => Naive (x - td)
  | Aware x => Aware (x - td)
  end.

(** [round(a / b)] for integers [a] and [b > 0]: true division followed by
    rounding to the nearest integer, ties to the even one.  The quotient is
    taken exactly; the float that Python rounds agrees with it as long as
    [2 * |a|] stays below [2^53]. *)
Definition round_div (a b : Z) : Z :=
  let q := (a / b)%Z in
  let r := (a mod b)%Z in
  if decide (2 * r < b)%Z then q
  else if decide (b < 2 * r)%Z then (q + 1)%Z
  else if Z.even q then q else (q + 1)%Z.

(** [s.replace('Z', '+00:00')]. *)
Fixpoint replace_Z (s : string) : string :=
  match s with
  | EmptyString => EmptyString
  | String c rest =>
      if decide (c = "Z"%char) then ("+00:00" +:+ replace_Z rest)%string
      else String c (replace_Z rest)
  end.

(** [s[:n]]. *)
Fixpoint take_str (n : nat) (s : string) : string :=
  match n, s with
  | S n', String c rest => String c (take_str n' rest)
  | _, _ => EmptyString
  end.

(** Truthiness of an optional string ([None] and [''] are falsy). *)
Definition truthy (s : option string) : bool :=
  match s with
  | Some (String _ _) => true
  | _ => false
  end.

End py.

(** ** Data model *)

(** The metadata of one monitored repository file (a value of
    [files_data.json]). *)
Record file_info : Type := FileInfo {
  fi_sha : option string;
  fi_size : option Z;
  fi_path : option string;
  fi_content_hash : option string;
  fi_download_url : option string;
  fi_last_processed : option string;
  fi_added_date : option string
}.

#[global] Instance file_info_eq_dec : EqDecision file_info.
Proof. solve_decision. Defined.

(** One feed entry (an element of [feed_entries.json]). *)
Record entry : Type := Entry {
  e_id : option string;
  e_title : option string;
  e_link : option string;
  e_published : option string;
  e_content : option string;
  e_content_hash : option string;
  e_feed_index : option Z;
  e_detected_date : option string
}.

#[global] Instance entry_eq_dec : EqDecision entry.
Proof. solve_decision. Defined.

(** Library functions and the wall clock. *)
Record Platform : Type := {
  (** the n-th reading of [datetime.now()], naive local time *)
  clock : nat -> Z;
  (** [datetime.isoformat] of a naive datetime *)
  isoformat : Z -> string;
  (** [datetime.fromisoformat]; [None] stands for [ValueError] *)
  fromisoformat : string -> option py.datetime;
  (** [datetime.strptime value format] for formats without [%z], whose
      result is naive; [None] stands for [ValueError] *)
  strptime : string -> string -> option Z;
  (** [hashlib.sha256(s.encode()).hexdigest()] *)
  sha256_hex : string -> string;
  (** [Path(p).suffix.lower()] *)
  path_suffix_lower : string -> string;
  (** [json.load] of a file expected to hold the files table; [None] when
      it raises *)
  json_load_files : string -> option (gmap string file_info);
  json_dump_files : gmap string file_info -> string;
  (** [json.load] of a file expected to hold a list of entries *)
  json_load_entries : string -> option (list entry);
  json_dump_entries : list entry -> string
}.

(** [datetime.now()]: the reading at index [t], and the next index. *)
Definition datetime_now (P : Platform) (t : nat) : Z * nat := (clock P t, S t).

(** ** The file system *)

Record FS : Type := {
  contents : gmap string string;
  (** paths on which [open(.., 'w')] and [unlink] raise *)
  locked : gset string
}.

(** [base / name] for relative [name]. *)
Definition path_join (base name : string) : string := (base +:+ "/" +:+ name)%string.

Definition fs_exists (fs : FS) (p : string) : bool := bool_decide (is_Some (contents fs !! p)).

Definition fs_read (fs : FS) (p : string) : option string := contents fs !! p.

(** [open(p, 'w')] followed by a write of [txt]; [None] when it raises. *)
Definition fs_write (fs : FS) (p txt : string) : option FS :=
  if decide (p ∈ locked fs) then None
  else Some {| contents := <[p := txt]> (contents fs); locked := locked fs |}.

(** [p.unlink()]; [None] when it raises. *)
Definition fs_unlink (fs : FS) (p : string) : option FS :=
  if decide (p ∈ locked fs) then None
  else match contents fs !! p with
       | None => None
       | Some _ => Some {| contents := delete p (contents fs); locked := locked fs |}
       end.

(** ** monitor_repo_directory.py *)

Module monitor_repo_directory.

(** A [ContentFile] of the content host's API. *)
Record ContentFile : Type := {
  cf_type : string;
  cf_name : string;
  cf_path : string;
  cf_sha : string;
  cf_size : Z;
  (** [decoded_content.decode('utf-8')]; [None] when it raises *)
  cf_decoded : option string;
  cf_download_url : option string
}.

(** The remote tree as the traversal observes it: an item of a listing,
    what [repo.get_contents(item.path)] returns when the item is fetched as
    a file ([None]: the call raises), and the listing it returns when the
    item is entered as a directory ([None]: the call raises; a single
    object is a one-element listing).  The remote side does not change
    during a run, so both fetches of a file see the same object. *)
#[warnings="-register-all"]
Inductive node : Type :=
| Node (item : ContentFile) (fetch : option ContentFile) (listing : option (list node)).

(** Induction over the remote tree, with the hypothesis for every item of
    a listing. *)
Fixpoint node_listing_ind (Q : node → Prop)
    (Hleaf : ∀ item fetch, Q (Node item fetch None))
    (Hdir : ∀ item fetch items, Forall Q items → Q (Node item fetch (Some items)))
    (n : node) {struct n} : Q n :=
  match n with
  | Node item fetch None => Hleaf item fetch
  | Node item fetch (Some items) =>
      Hdir item fetch items
        ((fix all (l : list node) : Forall Q l :=
            match l with
            | [] => @List.Forall_nil node Q
            | x :: rest =>
                @List.Forall_cons node Q x rest (node_listing_ind Q Hleaf Hdir x) (all rest)
            end) items)
  end.

(** What [repo.get_contents(directory_path)] returns at the root. *)
Inductive root_contents : Type :=
| RootRaises
| RootList (items : list node)
| RootSingle (contents : ContentFile) (fetch : option ContentFile).

(** [download_file_metadata]: the metadata dictionary, or [None]. *)
Definition download_file_metadata (P : Platform) (fetch : option ContentFile) (t : nat)
    : option file_info * nat :=
  match fetch with
  | None => (None, t)
  | Some file_content =>
      if decide (cf_type file_content = "file") then
        match cf_decoded file_content with
        | None => (None, t)
        | Some content =>
            let content_hash := sha256_hex P content in
            let '(now, t') := datetime_now P t in
            (Some {| fi_sha := Some (cf_sha file_content);
                     fi_size := Some (cf_size file_content);
                     fi_path := Some (cf_path file_content);
                     fi_content_hash := Some content_hash;
                     fi_download_url := cf_download_url file_content;
                     fi_last_processed := Some (isoformat P now);
                     fi_added_date := None |}, t')
        end
      else (None, t)
  end.

(** [download_file_content_for_commit]. *)
Definition download_file_content_for_commit (fetch : option ContentFile) : option string :=
  match fetch with
  | None => None
  | Some file_content =>
      if decide (cf_type file_content = "file") then cf_decoded file_content else None
  end.

(** [should_process_file]; [suffix_lower p] is [Path(p).suffix.lower()]. *)
Definition should_process_file (suffix_lower : string -> string) (file_path : string) : bool :=
  let allowed_extensions : list string := [".md"; ".markdown"; ".txt"; ".json"] in
  bool_decide (suffix_lower file_path ∈ allowed_extensions).

(** [save_file_locally]; [None] when the write raises. *)
Definition save_file_locally (fs : FS) (local_storage_path relative_path content : string)
    : option FS :=
  fs_write fs (path_join (path_join local_storage_path "files") relative_path) content.

(** The state the traversal updates in place: the table under
    construction, the local files, and the clock index. *)
Record Walk : Type := {
  w_files : gmap string file_info;
  w_fs : FS;
  w_tick : nat
}.

Section traversal.
Context (P : Platform) (local_storage_path : option string).

(** [handle_file]; the flag tells whether an exception escapes. *)
Definition handle_file (item : ContentFile) (fetch : option ContentFile)
    (relative_path : string) (w : Walk) : Walk * bool :=
  if should_process_file (path_suffix_lower P) (cf_path item) then
    match download_file_metadata P fetch (w_tick w) with
    | (Some file_metadata, t') =>
        let files := <[relative_path := file_metadata]> (w_files w) in
        let w1 := {| w_files := files; w_fs := w_fs w; w_tick := t' |} in
        match local_storage_path with
        | Some dir =>
            if py.truthy (download_file_content_for_commit fetch) then
              match save_file_locally (w_fs w) dir relative_path
                      (default "" (download_file_content_for_commit fetch)) with
              | Some fs' => ({| w_files := files; w_fs := fs'; w_tick := t' |}, false)
              | None => (w1, true)
              end
            else (w1, false)
        | None => (w1, false)
        end
    | (None, t') => ({| w_files := w_files w; w_fs := w_fs w; w_tick := t' |}, false)
    end
  else (w, false).

(** The body of the loop of [process_contents] for one item, with
    [handle_directory] inlined: it catches whatever escapes from the nested
    [process_contents], so a directory never lets an exception through. *)
Fixpoint process_item (current_path : string) (n : node) (w : Walk) {struct n} : Walk * bool :=
  match n with
  | Node item fetch listing =>
      let relative_path :=
        if decide (current_path = "") then cf_name item
        else (current_path +:+ "/" +:+ cf_name item)%string in
      if decide (cf_type item = "file") then handle_file item fetch relative_path w
      else if decide (cf_type item = "dir") then
        match listing with
        | Some subcontents =>
            let nested :=
              (fix loop (items : list node) (w : Walk) {struct items} : Walk * bool :=
                 match items with
                 | [] => (w, false)
                 | n' :: rest =>
                     let '(w1, raised) := process_item relative_path n' w in
                     if raised then (w1, true) else loop rest w1
                 end) subcontents w in
            (fst nested, false)
        | None => (w, false)
        end
      else (w, false)
  end.

(** [process_contents]: the loop stops at the first item that raises. *)
Fixpoint process_contents (current_path : string) (items : list node) (w : Walk)
    : Walk * bool :=
  match items with
  | [] => (w, false)
  | n :: rest =>
      let '(w1, raised) := process_item current_path n w in
      if raised then (w1, true) else process_contents current_path rest w1
  end.

(** [get_directory_contents]: the table, and the local files and clock
    index it leaves behind. *)
Definition get_directory_contents (root : root_contents) (fs : FS) (t : nat)
    : gmap string file_info * FS * nat :=
  let w0 := {| w_files := ∅; w_fs := fs; w_tick := t |} in
  match root with
  | RootRaises => (∅, fs, t)
  | RootList items =>
      let '(w, raised) := process_contents "" items w0 in
      (if raised then ∅ else w_files w, w_fs w, w_tick w)
  | RootSingle contents fetch =>
      let '(w, raised) := handle_file contents fetch (cf_name contents) w0 in
      (if raised then ∅ else w_files w, w_fs w, w_tick w)
  end.

End traversal.

Record FileCountAnalysis : Type := {
  total_files : nat;
  average_size : Z
}.

Record Summary : Type := {
  new_count : nat;
  updated_count : nat;
  unchanged_count : nat
}.

(** The dictionary [compare_file_metadata] returns. *)
Record ChangesData : Type := {
  monitored_files : gmap string file_info;
  file_count_analysis : FileCountAnalysis;
  summary : Summary;
  new_files : list string;
  updated_files : list string;
  unchanged_files : list string
}.

(** The local variables of [compare_file_metadata]. *)
Record Locals : Type := {
  l_new_files : list string;
  l_updated_files : list string;
  l_unchanged_files : list string;
  l_total_size : Z
}.

Definition locals0 : Locals :=
  {| l_new_files := []; l_updated_files := []; l_unchanged_files := []; l_total_size := 0 |}.

(** One iteration of [for file_path, metadata in new_metadata.items()]. *)
Definition compare_step (old_metadata : gmap string file_info)
    (st : Locals) (item : string * file_info) : Locals :=
  let '(file_path, metadata) := item in
  let file_size := default 0%Z (fi_size metadata) in
  let total := (l_total_size st + file_size)%Z in
  match old_metadata !! file_path with
  | None =>
      {| l_new_files := l_new_files st ++ [file_path];
         l_updated_files := l_updated_files st;
         l_unchanged_files := l_unchanged_files st;
         l_total_size := total |}
  | Some old_info =>
      let old_hash := fi_content_hash old_info in
      let new_hash := fi_content_hash metadata in
      if decide (old_hash ≠ new_hash) then
        {| l_new_files := l_new_files st;
           l_updated_files := l_updated_files st ++ [file_path];
           l_unchanged_files := l_unchanged_files st;
           l_total_size := total |}
      else
        {| l_new_files := l_new_files st;
           l_updated_files := l_updated_files st;
           l_unchanged_files := l_unchanged_files st ++ [file_path];
           l_total_size := total |}
  end.

Definition compare_loop (old_metadata : gmap string file_info)
    (items : list (string * file_info)) (st : Locals) : Locals :=
  foldl (compare_step old_metadata) st items.

Definition compare_file_metadata (old_metadata new_metadata : gmap string file_info)
    : ChangesData :=
  let st := compare_loop old_metadata (map_to_list new_metadata) locals0 in
  {| monitored_files := new_metadata;
     file_count_analysis :=
       {| total_files := size new_metadata;
          average_size :=
            if decide (new_metadata = ∅) then 0%Z
            else py.round_div (l_total_size st) (Z.of_nat (size new_metadata)) |};
     summary :=
       {| new_count := length (l_new_files st);
          updated_count := length (l_updated_files st);
          unchanged_count := length (l_unchanged_files st) |};
     new_files := l_new_files st;
     updated_files := l_updated_files st;
     unchanged_files := l_unchanged_files st |}.

(** [main], lines 356-365: the previous table, empty when the file is
    missing or [json.load] raises. *)
Definition load_previous_files (P : Platform) (fs : FS) (files_data_file : string)
    : gmap string file_info :=
  match fs_read fs files_data_file with
  | None => ∅
  | Some txt =>
      match json_load_files P txt with
      | Some previous_files => previous_files
      | None => ∅
      end
  end.

(** [main], lines 356-368: load, then compare ([main] gets here when the
    current table is not empty). *)
Definition main_compare (P : Platform) (fs : FS) (repo_content_path : string)
    (current_metadata : gmap string file_info) : ChangesData :=
  let files_data_file := path_join repo_content_path "files_data.json" in
  let previous_files := load_previous_files P fs files_data_file in
  compare_file_metadata previous_files current_metadata.

(** [main], once the configuration is read and the repository is reached:
    the local files and the clock index afterwards and the value written
    to the output [changes_detected].  [root] is the remote directory as
    the scan observes it and [json_dump_changes] is [json.dump] of the
    changes dictionary; the two writes are not guarded, so a write that
    fails ends the run with [OSError].  The summary text is left out. *)
Definition main (P : Platform) (json_dump_changes : ChangesData → string)
    (root : root_contents) (local_content_dir : string) (fs : FS) (t : nat)
    : py.result (FS * nat * bool) :=
  let repo_content_path := path_join local_content_dir "repo-content" in
  let '(current_metadata, fs1, t1) :=
    get_directory_contents P (Some repo_content_path) root fs t in
  if decide (current_metadata = ∅) then py.Ok (fs1, t1, false)
  else
    let files_data_file := path_join repo_content_path "files_data.json" in
    let changes_data := main_compare P fs1 repo_content_path current_metadata in
    let has_changes :=
      bool_decide (0 < new_count (summary changes_data)) ||
      bool_decide (0 < updated_count (summary changes_data)) in
    match fs_write fs1 files_data_file (json_dump_files P current_metadata) with
    | None => py.Raise py.OSError
    | Some fs2 =>
        let changes_file := path_join repo_content_path "latest_changes.json" in
        match fs_write fs2 changes_file (json_dump_changes changes_data) with
        | None => py.Raise py.OSError
        | Some fs3 => py.Ok (fs3, t1, has_changes)
        end
    end.

End monitor_repo_directory.

(** ** monitor_rss_feed.py *)

Module monitor_rss_feed.

Record EntryInfo : Type := {
  ei_id : string;
  ei_title : string;
  ei_days_old : Z
}.

Record AgeDistribution : Type := {
  last_week : nat;
  last_month : nat;
  last_quarter : nat;
  older : nat
}.

(** The dictionary [analyze_entries_for_cleanup] returns. *)
Record CleanupInfo : Type := {
  total_entries : nat;
  total_stored : nat;
  entry_growth : Z;
  oldest_entries : list EntryInfo;
  entry_age_distribution : AgeDistribution
}.

(** The dictionary [compare_feed_entries] returns. *)
Record Changes : Type := {
  new_entries : list entry;
  total_new : nat;
  cleanup_analysis : CleanupInfo
}.

Definition date_formats : list string :=
  ["%Y-%m-%dT%H:%M:%SZ"; "%Y-%m-%d %H:%M:%S"; "%a, %d %b %Y %H:%M:%S %Z"].

(** The inner [for fmt in ...] loop: the date of the first format that
    parses. *)
Fixpoint first_format (P : Platform) (published : string) (formats : list string)
    : option Z :=
  match formats with
  | [] => None
  | fmt :: rest =>
      match strptime P published fmt with
      | Some entry_date => Some entry_date
      | None => first_format P published rest
      end
  end.

(** [days_old] of one entry, as [analyze_entries_for_cleanup] computes it. *)
Definition entry_days_old (P : Platform) (now : Z) (e : entry) : Z :=
  let published := default "" (e_published e) in
  if py.truthy (Some published) then
    match first_format P published date_formats with
    | Some entry_date => py.days (now - entry_date)
    | None => 0%Z
    end
  else 0%Z.

Definition age_step (d : AgeDistribution) (days_old : Z) : AgeDistribution :=
  if decide (days_old <= 7)%Z then
    {| last_week := S (last_week d); last_month := last_month d;
       last_quarter := last_quarter d; older := older d |}
  else if decide (days_old <= 30)%Z then
    {| last_week := last_week d; last_month := S (last_month d);
       last_quarter := last_quarter d; older := older d |}
  else if decide (days_old <= 90)%Z then
    {| last_week := last_week d; last_month := last_month d;
       last_quarter := S (last_quarter d); older := older d |}
  else
    {| last_week := last_week d; last_month := last_month d;
       last_quarter := last_quarter d; older := S (older d) |}.

(** [list.sort(key=days_old, reverse=True)]: a stable sort, largest first. *)
Fixpoint insert_desc (x : EntryInfo) (l : list EntryInfo) : list EntryInfo :=
  match l with
  | [] => [x]
  | y :: rest =>
      if decide (ei_days_old y <= ei_days_old x)%Z then x :: y :: rest
      else y :: insert_desc x rest
  end.

Definition sort_desc (l : list EntryInfo) : list EntryInfo := foldr insert_desc [] l.

Definition entry_info_of (P : Platform) (now : Z) (e : entry) : EntryInfo :=
  {| ei_id := default "" (e_id e);
     ei_title := py.take_str 50 (default "" (e_title e));
     ei_days_old := entry_days_old P now e |}.

(** [analyze_entries_for_cleanup]; reads the clock once. *)
Definition analyze_entries_for_cleanup (P : Platform) (t : nat)
    (old_entries new_entries : list entry) : CleanupInfo * nat :=
  let '(now, t') := datetime_now P t in
  let entry_info := map (entry_info_of P now) new_entries in
  let distribution :=
    foldl age_step
      {| last_week := 0; last_month := 0; last_quarter := 0; older := 0 |}
      (map ei_days_old entry_info) in
  ({| total_entries := length new_entries;
      total_stored := length old_entries;
      entry_growth := (Z.of_nat (length new_entries) - Z.of_nat (length old_entries))%Z;
      oldest_entries := take 10 (sort_desc entry_info);
      entry_age_distribution := distribution |}, t').

(** [{entry["id"]: entry for entry in old_entries if "id" in entry}]. *)
Definition old_entries_dict (old_entries : list entry) : gmap string entry :=
  foldl (fun d e => match e_id e with
                    | Some i => <[i := e]> d
                    | None => d
                    end) ∅ old_entries.

(** The local state of the loop of [compare_feed_entries]: the two fields
    of [changes] it updates, the entries of [new_entries] seen so far (as
    the loop leaves them: a new entry is stamped in place), and the clock
    index. *)
Record Locals : Type := {
  l_new_entries : list entry;
  l_total_new : nat;
  l_seen : list entry;
  l_tick : nat
}.

Definition set_detected_date (e : entry) (stamp : string) : entry :=
  {| e_id := e_id e; e_title := e_title e; e_link := e_link e;
     e_published := e_published e; e_content := e_content e;
     e_content_hash := e_content_hash e; e_feed_index := e_feed_index e;
     e_detected_date := Some stamp |}.

Definition compare_step (P : Platform) (old_dict : gmap string entry)
    (st : Locals) (new_entry : entry) : Locals :=
  let entry_id := default "" (e_id new_entry) in
  let skip := {| l_new_entries := l_new_entries st; l_total_new := l_total_new st;
                 l_seen := l_seen st ++ [new_entry]; l_tick := l_tick st |} in
  if negb (py.truthy (Some entry_id)) then skip
  else match old_dict !! entry_id with
       | Some _ => skip
       | None =>
           let '(now, t') := datetime_now P (l_tick st) in
           let stamped := set_detected_date new_entry (isoformat P now) in
           {| l_new_entries := l_new_entries st ++ [stamped];
              l_total_new := S (l_total_new st);
              l_seen := l_seen st ++ [stamped];
              l_tick := t' |}
       end.

(** [compare_feed_entries]: the returned dictionary, the list
    [new_entries] as the call leaves it, and the next clock index. *)
Definition compare_feed_entries (P : Platform) (t : nat)
    (old_entries new_entries : list entry) : Changes * list entry * nat :=
  let '(cleanup, t1) := analyze_entries_for_cleanup P t old_entries new_entries in
  let d := old_entries_dict old_entries in
  let st := foldl (compare_step P d)
              {| l_new_entries := []; l_total_new := 0; l_seen := []; l_tick := t1 |}
              new_entries in
  ({| new_entries := l_new_entries st;
      total_new := l_total_new st;
      cleanup_analysis := cleanup |}, l_seen st, l_tick st).

(** [main], lines 296-305: the previous entries of one feed, empty when the
    file is missing or [json.load] raises. *)
Definition load_previous_entries (P : Platform) (fs : FS) (feed_entries_file : string)
    : list entry :=
  match fs_read fs feed_entries_file with
  | None => []
  | Some txt =>
      match json_load_entries P txt with
      | Some previous_entries => previous_entries
      | None => []
      end
  end.

(** [main], lines 296-308: load, then compare ([main] gets here when the
    feed has entries). *)
Definition main_compare (P : Platform) (t : nat) (fs : FS) (feed_dir : string)
    (current_entries : list entry) : Changes * list entry * nat :=
  let feed_entries_file := path_join feed_dir "feed_entries.json" in
  let previous_entries := load_previous_entries P fs feed_entries_file in
  compare_feed_entries P t previous_entries current_entries.

(** A feed entry as the feed parser presents it: each field is the value
    of the attribute when the entry has it.  [fe_content] is the list of
    content dictionaries, each given by the text under its ['value'] key
    when it has one. *)
Record FeedEntry : Type := {
  fe_id : option string;
  fe_link : option string;
  fe_title : option string;
  fe_published : option string;
  fe_updated : option string;
  fe_content_encoded : option string;
  fe_content : option (list (option string));
  fe_description : option string;
  fe_summary : option string
}.

(** An element of [content_candidates]: a string or a list. *)
Inductive candidate : Type :=
| Text (s : string)
| Items (l : list (option string)).

(** [strip_html_and_markdown]; [strip_markup] is what the parser and the
    regular expressions make of a non-empty text. *)
Definition strip_html_and_markdown (strip_markup : string → string) (text : string)
    : string :=
  if negb (py.truthy (Some text)) then "" else strip_markup text.

(** The loop [for candidate in content_candidates], from [raw_content] on:
    the value of [raw_content] when the loop ends or breaks. *)
Fixpoint select_content (raw_content : string) (content_candidates : list candidate)
    : string :=
  match content_candidates with
  | [] => raw_content
  | Items (first :: _) :: rest =>
      let raw_content := default "" first in
      if py.truthy (Some raw_content) then raw_content
      else select_content raw_content rest
  | Items [] :: rest => select_content raw_content rest
  | Text s :: rest =>
      if py.truthy (Some s) then
        if decide (200 < String.length s) then s
        else select_content s rest
      else select_content raw_content rest
  end.

Definition content_candidates (feed_entry : FeedEntry) : list candidate :=
  [Text (default "" (fe_content_encoded feed_entry));
   Items (default [] (fe_content feed_entry));
   Text (default "" (fe_description feed_entry));
   Text (default "" (fe_summary feed_entry))].

(** The body of the loop of [extract_feed_entries]. *)
Definition extract_entry (P : Platform) (strip_markup : string → string)
    (feed_index : nat) (feed_entry : FeedEntry) : entry :=
  let entry_id :=
    match fe_id feed_entry with
    | Some i => i
    | None => default "" (fe_link feed_entry)
    end in
  let title := default "No title" (fe_title feed_entry) in
  let link := default "" (fe_link feed_entry) in
  let published :=
    match fe_published feed_entry with
    | Some p => p
    | None => default "" (fe_updated feed_entry)
    end in
  let raw_content := select_content "" (content_candidates feed_entry) in
  let clean_content := strip_html_and_markdown strip_markup raw_content in
  let content_to_hash := (title +:+ link +:+ clean_content)%string in
  let content_hash := sha256_hex P content_to_hash in
  {| e_id := Some entry_id;
     e_title := Some title;
     e_link := Some link;
     e_published := Some published;
     e_content := Some clean_content;
     e_content_hash := Some content_hash;
     e_feed_index := Some (Z.of_nat feed_index);
     e_detected_date := None |}.

(** [extract_feed_entries], given [feed.entries]. *)
Definition extract_feed_entries (P : Platform) (strip_markup : string → string)
    (entries : list FeedEntry) (feed_index : nat) : list entry :=
  map (extract_entry P strip_markup feed_index) entries.

(** What [fetch_rss_feed] returns when it returns a feed: the entries and
    the attributes of [feed.feed] that [main] reads. *)
Record Feed : Type := {
  feed_entries : list FeedEntry;
  feed_title : option string;
  feed_link : option string;
  feed_description : option string
}.

(** The dictionary [main] writes to [feed_metadata.json]. *)
Record FeedMetadata : Type := {
  m_feed_title : string;
  m_feed_link : string;
  m_feed_description : string;
  m_feed_url : string;
  m_feed_index : nat;
  m_last_updated : string;
  m_total_entries : nat
}.

(** [json.dump] of the two dictionaries [main] writes beside the entries. *)
Record Dumps : Type := {
  json_dump_changes : Changes → string;
  json_dump_metadata : FeedMetadata → string
}.

(** [Path(local_content_dir) / "rss-content" / f"feed-{feed_index}"]. *)
Definition feed_dir (local_content_dir : string) (feed_index : nat) : string :=
  path_join (path_join local_content_dir "rss-content") ("feed-" +:+ pretty feed_index).

(** One iteration of the loop of [main] over the feeds; [feed] is what
    [fetch_rss_feed] returns for the URL.  The result is the local files
    and the clock index afterwards and the value of [has_changes] ([false]
    when the iteration ends with [continue]); the three writes are not
    guarded, so a write that fails ends the run with [OSError]. *)
Definition process_feed (P : Platform) (D : Dumps) (strip_markup : string → string)
    (local_content_dir : string) (feed_index : nat) (rss_feed_url : string)
    (feed : option Feed) (fs : FS) (t : nat) : py.result (FS * nat * bool) :=
  match feed with
  | None => py.Ok (fs, t, false)
  | Some feed =>
      let current_entries :=
        extract_feed_entries P strip_markup (feed_entries feed) feed_index in
      match current_entries with
      | [] => py.Ok (fs, t, false)
      | _ :: _ =>
          let feed_dir := feed_dir local_content_dir feed_index in
          let feed_entries_file := path_join feed_dir "feed_entries.json" in
          let previous_entries := load_previous_entries P fs feed_entries_file in
          let '(changes, current_entries, t1) :=
            compare_feed_entries P t previous_entries current_entries in
          let has_changes := bool_decide (0 < total_new changes) in
          match fs_write fs feed_entries_file (json_dump_entries P current_entries) with
          | None => py.Raise py.OSError
          | Some fs1 =>
              let changes_file := path_join feed_dir "latest_changes.json" in
              match fs_write fs1 changes_file (json_dump_changes D changes) with
              | None => py.Raise py.OSError
              | Some fs2 =>
                  let '(now, t2) := datetime_now P t1 in
                  let metadata :=
                    {| m_feed_title := default "Unknown" (feed_title feed);
                       m_feed_link := default "" (feed_link feed);
                       m_feed_description := default "" (feed_description feed);
                       m_feed_url := rss_feed_url;
                       m_feed_index := feed_index;
                       m_last_updated := isoformat P now;
                       m_total_entries := length current_entries |} in
                  let metadata_file := path_join feed_dir "feed_metadata.json" in
                  match fs_write fs2 metadata_file (json_dump_metadata D metadata) with
                  | None => py.Raise py.OSError
                  | Some fs3 => py.Ok (fs3, t2, has_changes)
                  end
              end
          end
      end
  end.

(** The loop of [main] from feed [feed_index] on; [feeds] pairs each URL
    of [RSS_FEEDS] with what [fetch_rss_feed] returns for it. *)
Fixpoint process_feeds (P : Platform) (D : Dumps) (strip_markup : string → string)
    (local_content_dir : string) (feed_index : nat)
    (feeds : list (string * option Feed)) (fs : FS) (t : nat)
    (all_changes_detected : bool) : py.result (FS * nat * bool) :=
  match feeds with
  | [] => py.Ok (fs, t, all_changes_detected)
  | (rss_feed_url, feed) :: rest =>
      match process_feed P D strip_markup local_content_dir feed_index
              rss_feed_url feed fs t with
      | py.Raise err => py.Raise err
      | py.Ok (fs', t', has_changes) =>
          process_feeds P D strip_markup local_content_dir (S feed_index) rest fs' t'
            (all_changes_detected || has_changes)
      end
  end.

(** [main], once the configuration is read: the local files afterwards,
    the clock index, and the value written to the output
    [changes_detected].  The summary texts are left out. *)
Definition main (P : Platform) (D : Dumps) (strip_markup : string → string)
    (local_content_dir : string) (feeds : list (string * option Feed))
    (fs : FS) (t : nat) : py.result (FS * nat * bool) :=
  process_feeds P D strip_markup local_content_dir 0 feeds fs t false.

End monitor_rss_feed.

(** ** cleanup_content.py *)

Module cleanup_content.

(** A repository cleanup candidate; [rc_days_old = None] is the string
    ["unknown"]. *)
Record RepoCandidate : Type := {
  rc_path : string;
  rc_size : Z;
  rc_added_date : string;
  rc_days_old : option Z
}.

(** A feed cleanup candidate. *)
Record RssCandidate : Type := {
  xc_id : string;
  xc_title : string;
  xc_published : string;
  xc_detected_date : string;
  xc_days_old : Z
}.

(** The local variables of the loop of [analyze_repo_files_for_cleanup]. *)
Record RepoScan : Type := {
  s_candidates : list RepoCandidate;
  s_total_files : nat;
  s_total_size : Z;
  s_tick : nat
}.

(** One iteration of [for file_path, file_info in files_data.items()]. *)
Definition repo_step (P : Platform) (cutoff_date : py.datetime)
    (st : RepoScan) (item : string * file_info) : RepoScan :=
  let '(file_path, info) := item in
  let file_size := default 0%Z (fi_size info) in
  let total_files := S (s_total_files st) in
  let total_size := (s_total_size st + file_size)%Z in
  let keep := {| s_candidates := s_candidates st; s_total_files := total_files;
                 s_total_size := total_size; s_tick := s_tick st |} in
  let unknown := {| rc_path := file_path; rc_size := file_size;
                    rc_added_date := "unknown"; rc_days_old := None |} in
  let except := {| s_candidates := s_candidates st ++ [unknown];
                   s_total_files := total_files;
                   s_total_size := total_size; s_tick := s_tick st |} in
  if py.truthy (fi_added_date info) then
    let added_date_str := default "" (fi_added_date info) in
    match fromisoformat P (py.replace_Z added_date_str) with
    | None => except
    | Some added_date =>
        match py.dt_lt added_date cutoff_date with
        | py.Raise _ => except
        | py.Ok false => keep
        | py.Ok true =>
            let '(now, t') := datetime_now P (s_tick st) in
            match py.dt_sub (py.Naive now) added_date with
            | py.Raise _ => except
            | py.Ok age =>
                {| s_candidates := s_candidates st ++
                     [{| rc_path := file_path; rc_size := file_size;
                         rc_added_date := added_date_str;
                         rc_days_old := Some (py.days age) |}];
                   s_total_files := total_files;
                   s_total_size := total_size; s_tick := t' |}
            end
        end
    end
  else keep.

(** [analyze_repo_files_for_cleanup]: candidates, file count and total
    size, and the next clock index. *)
Definition analyze_repo_files_for_cleanup (P : Platform) (t : nat) (fs : FS)
    (repo_content_path : string) (age_threshold_days : Z)
    : (list RepoCandidate * nat * Z) * nat :=
  let files_data_file := path_join repo_content_path "files_data.json" in
  match fs_read fs files_data_file with
  | None => (([], 0, 0%Z), t)
  | Some txt =>
      match json_load_files P txt with
      | None => (([], 0, 0%Z), t)
      | Some files_data =>
          let '(now, t1) := datetime_now P t in
          let cutoff_date :=
            py.dt_minus (py.Naive now) (py.timedelta_days age_threshold_days) in
          let st := foldl (repo_step P cutoff_date)
                      {| s_candidates := []; s_total_files := 0;
                         s_total_size := 0; s_tick := t1 |}
                      (map_to_list files_data) in
          ((s_candidates st, s_total_files st, s_total_size st), s_tick st)
      end
  end.

(** [parse_entry_date]. *)
Definition parse_entry_date (P : Platform) (published detected_date : string)
    : option py.datetime :=
  let from_published :=
    if py.truthy (Some published) then
      monitor_rss_feed.first_format P published monitor_rss_feed.date_formats
    else None in
  match from_published with
  | Some d => Some (py.Naive d)
  | None =>
      if py.truthy (Some detected_date) then
        fromisoformat P (py.replace_Z detected_date)
      else None
  end.

(** The local variables of the loop of [analyze_rss_entries_for_cleanup]. *)
Record RssScan : Type := {
  x_candidates : list RssCandidate;
  x_total_entries : nat;
  x_tick : nat
}.

(** One iteration of [for entry in entries_data]; the comparison with the
    cutoff is not guarded, so its [TypeError] escapes. *)
Definition rss_step (P : Platform) (cutoff_date : py.datetime)
    (st : RssScan) (e : entry) : py.result RssScan :=
  let total_entries := S (x_total_entries st) in
  let published := default "" (e_published e) in
  let detected_date := default "" (e_detected_date e) in
  let keep := {| x_candidates := x_candidates st; x_total_entries := total_entries;
                 x_tick := x_tick st |} in
  match parse_entry_date P published detected_date with
  | None => py.Ok keep
  | Some entry_date =>
      match py.dt_lt entry_date cutoff_date with
      | py.Raise err => py.Raise err
      | py.Ok false => py.Ok keep
      | py.Ok true =>
          let '(now, t') := datetime_now P (x_tick st) in
          match py.dt_sub (py.Naive now) entry_date with
          | py.Raise err => py.Raise err
          | py.Ok age =>
              py.Ok {| x_candidates := x_candidates st ++
                         [{| xc_id := default "" (e_id e);
                             xc_title := py.take_str 50 (default "" (e_title e));
                             xc_published := published;
                             xc_detected_date := detected_date;
                             xc_days_old := py.days age |}];
                       x_total_entries := total_entries;
                       x_tick := t' |}
          end
      end
  end.

(** The loop: it stops at the first iteration that raises. *)
Fixpoint rss_loop (P : Platform) (cutoff_date : py.datetime)
    (entries_data : list entry) (st : RssScan) : py.result RssScan :=
  match entries_data with
  | [] => py.Ok st
  | e :: rest =>
      match rss_step P cutoff_date st e with
      | py.Ok st' => rss_loop P cutoff_date rest st'
      | py.Raise err => py.Raise err
      end
  end.

(** [analyze_rss_entries_for_cleanup]: candidates and entry count, or the
    exception that escapes; and the next clock index when it returns. *)
Definition analyze_rss_entries_for_cleanup (P : Platform) (t : nat) (fs : FS)
    (rss_content_path : string) (age_threshold_days : Z)
    : py.result ((list RssCandidate * nat) * nat) :=
  let entries_data_file := path_join rss_content_path "feed_entries.json" in
  match fs_read fs entries_data_file with
  | None => py.Ok (([], 0), t)
  | Some txt =>
      match json_load_entries P txt with
      | None => py.Ok (([], 0), t)
      | Some entries_data =>
          let '(now, t1) := datetime_now P t in
          let cutoff_date :=
            py.dt_minus (py.Naive now) (py.timedelta_days age_threshold_days) in
          match rss_loop P cutoff_date entries_data
                  {| x_candidates := []; x_total_entries := 0; x_tick := t1 |} with
          | py.Ok st => py.Ok ((x_candidates st, x_total_entries st), x_tick st)
          | py.Raise err => py.Raise err
          end
      end
  end.

(** The state [cleanup_repo_files] updates: the local files, the loaded
    table, the list of removed paths and the bytes freed. *)
Record Sweep : Type := {
  sw_fs : FS;
  sw_files_data : gmap string file_info;
  sw_cleaned_files : list string;
  sw_total_size_freed : Z
}.

(** [_delete_file]: a failing unlink is reported and changes nothing. *)
Definition _delete_file (actual_file_path file_path : string) (file_size : Z)
    (st : Sweep) : Sweep :=
  match fs_unlink (sw_fs st) actual_file_path with
  | Some fs' =>
      {| sw_fs := fs'; sw_files_data := sw_files_data st;
         sw_cleaned_files := sw_cleaned_files st ++ [file_path];
         sw_total_size_freed := (sw_total_size_freed st + file_size)%Z |}
  | None => st
  end.

(** [_update_files_data]: a failing write is reported and changes nothing. *)
Definition _update_files_data (P : Platform) (fs : FS) (files_data_file : string)
    (files_data : gmap string file_info) : FS :=
  match fs_write fs files_data_file (json_dump_files P files_data) with
  | Some fs' => fs'
  | None => fs
  end.

(** One iteration of [for candidate in repo_candidates]. *)
Definition sweep_step (repo_content_path : string) (dry_run : bool)
    (st : Sweep) (candidate : RepoCandidate) : Sweep :=
  let file_path := rc_path candidate in
  let file_size := rc_size candidate in
  if negb dry_run then
    let actual_file_path := path_join (path_join repo_content_path "files") file_path in
    let st1 :=
      if fs_exists (sw_fs st) actual_file_path
      then _delete_file actual_file_path file_path file_size st
      else st in
    {| sw_fs := sw_fs st1; sw_files_data := delete file_path (sw_files_data st1);
       sw_cleaned_files := sw_cleaned_files st1;
       sw_total_size_freed := sw_total_size_freed st1 |}
  else st.

(** [cleanup_repo_files]: the local files afterwards, the removed paths and
    the bytes freed. *)
Definition cleanup_repo_files (P : Platform) (fs : FS) (repo_content_path : string)
    (repo_candidates : list RepoCandidate) (dry_run : bool) : FS * (list string * Z) :=
  let files_data_file := path_join repo_content_path "files_data.json" in
  let files_data :=
    match fs_read fs files_data_file with
    | None => ∅
    | Some txt => default ∅ (json_load_files P txt)
    end in
  let st := foldl (sweep_step repo_content_path dry_run)
              {| sw_fs := fs; sw_files_data := files_data;
                 sw_cleaned_files := []; sw_total_size_freed := 0 |}
              repo_candidates in
  let fs' :=
    if negb dry_run && bool_decide (sw_cleaned_files st ≠ [])
    then _update_files_data P (sw_fs st) files_data_file (sw_files_data st)
    else sw_fs st in
  (fs', (sw_cleaned_files st, sw_total_size_freed st)).

(** [cleanup_rss_entries]: the local files afterwards and the removed ids. *)
Definition cleanup_rss_entries (P : Platform) (fs : FS) (rss_content_path : string)
    (rss_candidates : list RssCandidate) (dry_run : bool) : FS * list string :=
  let entries_data_file := path_join rss_content_path "feed_entries.json" in
  let entries_data :=
    match fs_read fs entries_data_file with
    | None => []
    | Some txt => default [] (json_load_entries P txt)
    end in
  let candidate_ids : gset string := list_to_set (map xc_id rss_candidates) in
  if negb dry_run then
    let updated_entries :=
      filter (fun e => default "" (e_id e) ∉ candidate_ids) entries_data in
    let cleaned_entries := elements candidate_ids in
    let fs' :=
      match fs_write fs entries_data_file (json_dump_entries P updated_entries) with
      | Some fs' => fs'
      | None => fs
      end in
    (fs', cleaned_entries)
  else (fs, []).

(** [perform_cleanup]. *)
Definition perform_cleanup (P : Platform) (fs : FS)
    (repo_content_path rss_content_path : string)
    (repo_candidates : list RepoCandidate) (rss_candidates : list RssCandidate)
    (dry_run : bool) : FS * (list string * list string * Z) :=
  let '(fs1, (cleaned_files, total_size_freed)) :=
    match repo_candidates with
    | [] => (fs, ([], 0%Z))
    | _ :: _ => cleanup_repo_files P fs repo_content_path repo_candidates dry_run
    end in
  let '(fs2, cleaned_entries) :=
    match rss_candidates with
    | [] => (fs1, [])
    | _ :: _ => cleanup_rss_entries P fs1 rss_content_path rss_candidates dry_run
    end in
  (fs2, (cleaned_files, cleaned_entries, total_size_freed)).

(** [main], from the analysis on (the configuration is passed in; when the
    content directory is missing [main] returns before this point): the
    local files afterwards, or the exception that escapes the analysis. *)
Definition main (P : Platform) (t : nat) (fs : FS) (age_threshold_days : Z)
    (dry_run : bool) (local_content_dir : string) : py.result FS :=
  let repo_content_path := path_join local_content_dir "repo-content" in
  let rss_content_path := path_join local_content_dir "rss-content" in
  let '((repo_candidates, _, _), t1) :=
    analyze_repo_files_for_cleanup P t fs repo_content_path age_threshold_days in
  match analyze_rss_entries_for_cleanup P t1 fs rss_content_path age_threshold_days with
  | py.Raise err => py.Raise err
  | py.Ok ((rss_candidates, _), _) =>
      match repo_candidates, rss_candidates with
      | [], [] => py.Ok fs
      | _, _ =>
          py.Ok (fst (perform_cleanup P fs repo_content_path rss_content_path
                        repo_candidates rss_candidates dry_run))
      end
  end.

End cleanup_content.

(** ** Reference definitions

    The classification, the aggregates and the selection of cleanup
    candidates as the specification words them, against which the loops
    above are compared, and the vocabulary of the statements. *)

(** The class of one current item. *)
Inductive verdict : Type := New | Updated | Unchanged.

#[global] Instance verdict_eq_dec : EqDecision verdict.
Proof. solve_decision. Defined.

(** Absent from the previous table: new; present with an equal
    fingerprint: unchanged; present with a different one: updated. *)
Definition classify (previous : gmap string file_info) (identity : string)
    (item : file_info) : verdict :=
  match previous !! identity with
  | None => New
  | Some stored =>
      if decide (fi_content_hash stored = fi_content_hash item) then Unchanged else Updated
  end.

(** The identities of the items of class [v], in iteration order. *)
Definition keys_with (v : verdict) (previous : gmap string file_info)
    (items : list (string * file_info)) : list string :=
  (filter (fun kv => classify previous kv.1 kv.2 = v) items).*1.

(** The sum of the [size] fields (a missing field counts 0). *)
Definition sum_sizes (items : list (string * file_info)) : Z :=
  foldr (fun kv acc => (default 0 (fi_size kv.2) + acc)%Z) 0%Z items.


(** The sum of the sizes of a table. *)
Definition table_total_size (m : gmap string file_info) : Z := sum_sizes (map_to_list m).

(** The ids of the stored entries that carry one. *)
Definition stored_ids (old_entries : list entry) : gset string :=
  list_to_set (omap e_id old_entries).

(** A current entry is fresh when its id is non-empty and not stored. *)
Definition fresh (previous : list entry) (e : entry) : bool :=
  py.truthy (e_id e) && bool_decide (default "" (e_id e) ∉ stored_ids previous).

(** [n] is [e] with a detection stamp. *)
Definition stamped (n e : entry) : Prop := ∃ stamp, n = monitor_rss_feed.set_detected_date e stamp.

(** The stored file at [p] is missing, or [load] raises on its text. *)
Definition unreadable {A : Type} (load : string → option A) (fs : FS) (p : string) : Prop :=
  fs_read fs p = None ∨ ∃ txt, fs_read fs p = Some txt ∧ load txt = None.

(** [n'] is [n] up to its detection stamp. *)
Definition restamped (n n' : entry) : Prop :=
  ∃ stamp, n' = monitor_rss_feed.set_detected_date n stamp.

(** The table and the entry list the sweeper loads. *)
Definition stored_files (P : Platform) (fs : FS) (repo_content_path : string)
    : option (gmap string file_info) :=
  fs_read fs (path_join repo_content_path "files_data.json") ≫= json_load_files P.

Definition stored_entries (P : Platform) (fs : FS) (rss_content_path : string)
    : option (list entry) :=
  fs_read fs (path_join rss_content_path "feed_entries.json") ≫= json_load_entries P.

(** The parse of the [added_date] of a repository item, when it has a
    non-empty one. *)
Definition added_date_of (P : Platform) (info : file_info) : option (option py.datetime) :=
  if py.truthy (fi_added_date info)
  then Some (fromisoformat P (py.replace_Z (default "" (fi_added_date info))))
  else None.


(** Reference selection of repository candidates: an item with a date that
    is naive and before the cutoff, or with a non-empty date that does not
    parse or cannot be compared. *)
Definition repo_selected (P : Platform) (cutoff : Z) (info : file_info) : bool :=
  match added_date_of P info with
  | Some (Some (py.Naive d)) => bool_decide (d < cutoff)%Z
  | Some (Some (py.Aware _)) => true
  | Some None => true
  | None => false
  end.



(** The candidate [c] reports the repository item [(k, info)]. *)
Definition reports_file (P : Platform) (c : cleanup_content.RepoCandidate)
    (item : string * file_info) : Prop :=
  cleanup_content.rc_path c = item.1 ∧
  cleanup_content.rc_size c = default 0%Z (fi_size item.2) ∧
  match added_date_of P item.2 with
  | Some (Some (py.Naive d)) =>
      cleanup_content.rc_added_date c = default "" (fi_added_date item.2) ∧
      ∃ n, cleanup_content.rc_days_old c = Some (py.days (clock P n - d))
  | _ =>
      cleanup_content.rc_added_date c = "unknown" ∧
      cleanup_content.rc_days_old c = None
  end.


(** Every item of the table has a [last_processed] field and no
    [added_date] field. *)
Definition monitor_written (files : gmap string file_info) : Prop :=
  ∀ k info, files !! k = Some info →
    fi_added_date info = None ∧ is_Some (fi_last_processed info).


(** ** Reference definitions for the destructive sweep *)

(** The content file of a repository item, and the snapshot file. *)
Definition content_path (repo_content_path file_path : string) : string :=
  path_join (path_join repo_content_path "files") file_path.

Definition snapshot_path (repo_content_path : string) : string :=
  path_join repo_content_path "files_data.json".

(** The candidate's content file exists and can be unlinked. *)
Definition removable (fs : FS) (repo_content_path : string)
    (c : cleanup_content.RepoCandidate) : bool :=
  let p := content_path repo_content_path (cleanup_content.rc_path c) in
  fs_exists fs p && bool_decide (p ∉ locked fs).

(** Reference result of the destructive loop: the candidates whose file is
    removed, in order; [gone] holds the content files removed so far. *)
Fixpoint removed_from (fs : FS) (repo_content_path : string) (gone : gset string)
    (candidates : list cleanup_content.RepoCandidate)
    : list cleanup_content.RepoCandidate :=
  match candidates with
  | [] => []
  | c :: rest =>
      let p := content_path repo_content_path (cleanup_content.rc_path c) in
      if removable fs repo_content_path c && bool_decide (p ∉ gone)
      then c :: removed_from fs repo_content_path ({[p]} ∪ gone) rest
      else removed_from fs repo_content_path gone rest
  end.

(** The sum of a list of integers. *)
Definition sum_Z (l : list Z) : Z := foldr Z.add 0%Z l.

(** The table that is left when the entries of all candidates are dropped. *)
Definition without_candidates (files_data : gmap string file_info)
    (candidates : list cleanup_content.RepoCandidate) : gmap string file_info :=
  foldl (fun m c => delete (cleanup_content.rc_path c) m) files_data candidates.

(** The state of the loop, against the file system it started from. *)
Definition sweep_inv (fs0 : FS) (gone : gset string) (fs : FS) : Prop :=
  locked fs = locked fs0 ∧
  ∀ p, contents fs !! p = if decide (p ∈ gone) then None else contents fs0 !! p.


(** The stored list of feed entries the sweeper reads. *)
Definition entries_path (rss_content_path : string) : string :=
  path_join rss_content_path "feed_entries.json".

(** The entries that survive a sweep of the ids [ids]: those whose id (a
    missing id reads as the empty string) is not one of them. *)
Definition surviving (ids : gset string) (entries : list entry) : list entry :=
  filter (fun e => default "" (e_id e) ∉ ids) entries.


(** ** Reference definitions for the feed reconciler *)

(** In the list of oldest entries [x] may stand before [y]: it is at least
    as old. *)
Definition older_first (x y : monitor_rss_feed.EntryInfo) : Prop :=
  (monitor_rss_feed.ei_days_old y ≤ monitor_rss_feed.ei_days_old x)%Z.

(** The text has no path separator. *)
Fixpoint slash_free (s : string) : bool :=
  match s with
  | EmptyString => true
  | String c rest => negb (Ascii.eqb c "/") && slash_free rest
  end.

(** ** Reference definitions for the repository monitor *)

(** [fs'] differs from [fs] only by content files under [dir/files], each
    holding a non-empty text. *)
Definition content_written (dir : option string) (fs fs' : FS) : Prop :=
  locked fs' = locked fs ∧
  ∀ p, contents fs' !! p = contents fs !! p ∨
       ∃ d rel txt, dir = Some d ∧ p = content_path d rel ∧ txt ≠ "" ∧
                    contents fs' !! p = Some txt.

(** ** Sample data *)

(** 2026-11-03T12:00:00, in microseconds since 1970-01-01. *)
Definition t0 : Z := 1793707200000000.

(** One clock reading per second, starting at [t0]. *)
Definition sample_clock (n : nat) : Z := (t0 + Z.of_nat n * 1000000)%Z.

Definition sample_isoformat (z : Z) : string :=
  if decide (z = t0) then "2026-11-03T12:00:00"
  else if decide (z = t0 + 1000000)%Z then "2026-11-03T12:00:01"
  else if decide (z = t0 + 2000000)%Z then "2026-11-03T12:00:02"
  else if decide (z = t0 + 3000000)%Z then "2026-11-03T12:00:03"
  else "2026-11-03T12:00:04".

(** The dates the examples store: 90 days, 90 days and an hour, and 91
    days before [t0]; the last one carries a UTC offset. *)
Definition sample_fromisoformat (s : string) : option py.datetime :=
  if decide (s = "2026-08-05T12:00:00") then Some (py.Naive (t0 - 90 * py.day_us))
  else if decide (s = "2026-08-05T11:00:00")
       then Some (py.Naive (t0 - 90 * py.day_us - 3600000000))
  else if decide (s = "2026-08-04T12:00:00") then Some (py.Naive (t0 - 91 * py.day_us))
  else if decide (s = "2026-08-04T12:00:00+00:00")
       then Some (py.Aware (t0 - 91 * py.day_us))
  else None.

Definition sample_strptime (value fmt : string) : option Z :=
  if decide (fmt = "%Y-%m-%dT%H:%M:%SZ") then
    if decide (value = "2026-08-05T12:00:00Z") then Some (t0 - 90 * py.day_us)%Z
    else if decide (value = "2026-08-04T12:00:00Z") then Some (t0 - 91 * py.day_us)%Z
    else None
  else None.

(** A platform for the examples.  The text ["files"] stands for the
    serialisation of [files], the text ["entries"] for that of [entries];
    any other text does not parse.  Dates print and parse as in Python on
    the few values the examples use; the digest is the text itself (the
    examples only compare digests) and every path has the suffix [.md]. *)
Definition sample_platform (files : gmap string file_info) (entries : list entry)
    : Platform :=
  {| clock := sample_clock;
     isoformat := sample_isoformat;
     fromisoformat := sample_fromisoformat;
     strptime := sample_strptime;
     sha256_hex := fun s => s;
     path_suffix_lower := fun _ => ".md";
     json_load_files := fun txt => if decide (txt = "files") then Some files else None;
     json_dump_files := fun _ => "files";
     json_load_entries := fun txt => if decide (txt = "entries") then Some entries else None;
     json_dump_entries := fun _ => "entries" |}.

Definition empty_fs : FS := {| contents := ∅; locked := ∅ |}.

Definition mk_file (size : Z) (hash : string) : file_info :=
  {| fi_sha := None; fi_size := Some size; fi_path := None;
     fi_content_hash := Some hash; fi_download_url := None;
     fi_last_processed := None; fi_added_date := None |}.

Definition mk_entry (id : string) (hash : string) : entry :=
  {| e_id := Some id; e_title := Some "title"; e_link := Some "link";
     e_published := Some ""; e_content := Some "text";
     e_content_hash := Some hash; e_feed_index := Some 0%Z;
     e_detected_date := None |}.

(** A store without a files table, whose feed file is not JSON. *)
Definition sample_broken_store : FS :=
  {| contents := {[ "feeds/feed-0/feed_entries.json" := "not json" ]}; locked := ∅ |}.

Definition sample_current_files : gmap string file_info :=
  <["a.md" := mk_file 100 "H1"]> (<["b.md" := mk_file 200 "H2"]> ∅).

Definition sample_current_entries : list entry :=
  [mk_entry "e1" "H1"; mk_entry "" "H2"].

(** Previous and current tables and lists that share one identity; the
    identity [gone.md] is only in the previous ones. *)
Definition sample_old_files : gmap string file_info :=
  <["a.md" := mk_file 100 "H1"]> (<["gone.md" := mk_file 5 "H0"]> ∅).

Definition sample_old_entries : list entry :=
  [mk_entry "gone.md" "H1"; mk_entry "kept" "H2"].

Definition sample_new_entries : list entry :=
  [mk_entry "kept" "H2"; mk_entry "fresh" "H3"].

Definition sample_candidate : cleanup_content.RepoCandidate :=
  {| cleanup_content.rc_path := "old.md"; cleanup_content.rc_size := 10;
     cleanup_content.rc_added_date := "2026-08-04T12:00:00";
     cleanup_content.rc_days_old := Some 91%Z |}.

Definition sample_rss_candidate : cleanup_content.RssCandidate :=
  {| cleanup_content.xc_id := "e1"; cleanup_content.xc_title := "title";
     cleanup_content.xc_published := "2026-08-04T12:00:00Z";
     cleanup_content.xc_detected_date := "";
     cleanup_content.xc_days_old := 91 |}.

Definition sample_store : FS :=
  {| contents :=
       <["content/repo-content/files_data.json" := "files"]>
       (<["content/repo-content/files/old.md" := "old text"]>
       (<["content/rss-content/feed_entries.json" := "entries"]> ∅));
     locked := ∅ |}.

Definition sample_dated (added_date : string) : file_info :=
  {| fi_sha := None; fi_size := Some 10%Z; fi_path := None;
     fi_content_hash := Some "H"; fi_download_url := None;
     fi_last_processed := None; fi_added_date := Some added_date |}.

Definition sample_published (id published : string) : entry :=
  {| e_id := Some id; e_title := Some "title"; e_link := Some "link";
     e_published := Some published; e_content := Some "text";
     e_content_hash := Some "H"; e_feed_index := Some 0%Z;
     e_detected_date := None |}.

(** Files added 90 days, 90 days and one hour, and 91 days before the
    first clock reading; one with a date that does not parse. *)
Definition sample_files : gmap string file_info :=
  <["edge.md" := sample_dated "2026-08-05T12:00:00"]>
  (<["hour.md" := sample_dated "2026-08-05T11:00:00"]>
  (<["old.md" := sample_dated "2026-08-04T12:00:00"]>
  (<["odd.md" := sample_dated "last summer"]> ∅))).

(** Entries published 90 and 91 days before the first clock reading, and
    one whose dates do not parse. *)
Definition sample_entries : list entry :=
  [sample_published "edge" "2026-08-05T12:00:00Z";
   sample_published "old" "2026-08-04T12:00:00Z";
   sample_published "odd" "last summer"].

Definition sample_content_file (type name path text : string)
    : monitor_repo_directory.ContentFile :=
  {| monitor_repo_directory.cf_type := type;
     monitor_repo_directory.cf_name := name;
     monitor_repo_directory.cf_path := path;
     monitor_repo_directory.cf_sha := "sha-" +:+ name;
     monitor_repo_directory.cf_size := Z.of_nat (String.length text);
     monitor_repo_directory.cf_decoded := Some text;
     monitor_repo_directory.cf_download_url := Some ("https://host/" +:+ path) |}.

(** A monitored directory with one file and one sub-directory holding one
    file. *)
Definition sample_root : monitor_repo_directory.root_contents :=
  let readme := sample_content_file "file" "README.md" "docs/README.md" "hello" in
  let guide := sample_content_file "dir" "guide" "docs/guide" "" in
  let intro := sample_content_file "file" "intro.md" "docs/guide/intro.md" "welcome" in
  monitor_repo_directory.RootList
    [ monitor_repo_directory.Node readme (Some readme) None;
      monitor_repo_directory.Node guide None
        (Some [monitor_repo_directory.Node intro (Some intro) None]) ].

(** The table the monitor builds for [sample_root]. *)
Definition sample_written : gmap string file_info :=
  (monitor_repo_directory.get_directory_contents (sample_platform ∅ [])
     (Some "content/repo-content") sample_root empty_fs 0).1.1.


(** Serialisers of the two dictionaries the feed monitor writes beside the
    entries: the examples do not read these files back. *)
Definition sample_dumps : monitor_rss_feed.Dumps :=
  {| monitor_rss_feed.json_dump_changes := fun _ => "changes";
     monitor_rss_feed.json_dump_metadata := fun _ => "metadata" |}.

Definition sample_feed_entry (id : option string) (link summary : string)
    : monitor_rss_feed.FeedEntry :=
  {| monitor_rss_feed.fe_id := id;
     monitor_rss_feed.fe_link := Some link;
     monitor_rss_feed.fe_title := Some "title";
     monitor_rss_feed.fe_published := Some "2026-08-04T12:00:00Z";
     monitor_rss_feed.fe_updated := None;
     monitor_rss_feed.fe_content_encoded := None;
     monitor_rss_feed.fe_content := None;
     monitor_rss_feed.fe_description := None;
     monitor_rss_feed.fe_summary := Some summary |}.

(** A feed with two entries; the second has no id of its own. *)
Definition sample_feed : monitor_rss_feed.Feed :=
  {| monitor_rss_feed.feed_entries :=
       [sample_feed_entry (Some "e1") "https://host/1" "first";
        sample_feed_entry None "https://host/2" "second"];
     monitor_rss_feed.feed_title := Some "Blog";
     monitor_rss_feed.feed_link := Some "https://host";
     monitor_rss_feed.feed_description := None |}.

(** What the first monitor run over [sample_feed] stores in an empty
    content directory. *)
Definition sample_feed_stored : list entry :=
  (monitor_rss_feed.compare_feed_entries (sample_platform ∅ []) 0 []
     (monitor_rss_feed.extract_feed_entries (sample_platform ∅ []) id
        (monitor_rss_feed.feed_entries sample_feed) 0)).1.2.

(** * Properties *)

(** ** The repository reconciler *)

Section repo_reconciler.
Import monitor_repo_directory.

Lemma compare_step_classify old st k m :
  compare_step old st (k, m) =
  let total := (l_total_size st + default 0 (fi_size m))%Z in
  match classify old k m with
  | New =>
      {| l_new_files := l_new_files st ++ [k]; l_updated_files := l_updated_files st;
         l_unchanged_files := l_unchanged_files st; l_total_size := total |}
  | Updated =>
      {| l_new_files := l_new_files st; l_updated_files := l_updated_files st ++ [k];
         l_unchanged_files := l_unchanged_files st; l_total_size := total |}
  | Unchanged =>
      {| l_new_files := l_new_files st; l_updated_files := l_updated_files st;
         l_unchanged_files := l_unchanged_files st ++ [k]; l_total_size := total |}
  end.
Proof.
  unfold compare_step, classify. destruct (old !! k) as [o|]; [|done].
  destruct (decide (fi_content_hash o ≠ fi_content_hash m)) as [Hne|Heq].
  - by rewrite decide_False.
  - apply dec_stable in Heq. by rewrite decide_True.
Qed.

Lemma keys_with_cons v old k m items :
  keys_with v old ((k, m) :: items) =
  if decide (classify old k m = v) then k :: keys_with v old items
  else keys_with v old items.
Proof. unfold keys_with. rewrite filter_cons. cbn [fst snd]. by case_decide. Qed.

Lemma compare_loop_spec old items st :
  let st' := compare_loop old items st in
  l_new_files st' = l_new_files st ++ keys_with New old items ∧
  l_updated_files st' = l_updated_files st ++ keys_with Updated old items ∧
  l_unchanged_files st' = l_unchanged_files st ++ keys_with Unchanged old items ∧
  l_total_size st' = (l_total_size st + sum_sizes items)%Z.
Proof.
  revert st. induction items as [|[k m] items IH]; intros st; cbn zeta.
  - unfold keys_with. cbn. rewrite !app_nil_r. repeat split; lia.
  - unfold compare_loop in *. cbn [foldl].
    specialize (IH (compare_step old st (k, m))). cbn zeta in IH.
    destruct IH as (Hn & Hu & Hc & Hs).
    rewrite Hn, Hu, Hc, Hs. clear Hn Hu Hc Hs.
    rewrite !keys_with_cons, compare_step_classify. cbn zeta.
    change (sum_sizes ((k, m) :: items)) with (default 0 (fi_size m) + sum_sizes items)%Z.
    destruct (classify old k m); cbn -[sum_sizes]; rewrite <- ?app_assoc; cbn -[sum_sizes];
      repeat split; lia.
Qed.

Lemma keys_with_partition old items :
  keys_with New old items ++ keys_with Updated old items ++ keys_with Unchanged old items
  ≡ₚ items.*1.
Proof.
  induction items as [|[k m] items IH]; [done|].
  rewrite !keys_with_cons. cbn [fmap list_fmap fst].
  destruct (classify old k m); simpl; rewrite <- IH.
  - done.
  - symmetry. apply Permutation_middle.
  - rewrite !app_assoc. symmetry. apply Permutation_middle.
Qed.

Lemma elem_of_keys_with v old (new : gmap string file_info) k :
  k ∈ keys_with v old (map_to_list new) ↔
  ∃ m, new !! k = Some m ∧ classify old k m = v.
Proof.
  unfold keys_with. rewrite list_elem_of_fmap. split.
  - intros [[k' m] [-> [Hc Hin]%list_elem_of_filter]]. cbn in *.
    exists m. by rewrite <- elem_of_map_to_list.
  - intros (m & Hm & Hc). exists (k, m). split; [done|].
    apply list_elem_of_filter. by rewrite elem_of_map_to_list.
Qed.

Lemma compare_lists old new :
  let r := compare_file_metadata old new in
  new_files r = keys_with New old (map_to_list new) ∧
  updated_files r = keys_with Updated old (map_to_list new) ∧
  unchanged_files r = keys_with Unchanged old (map_to_list new).
Proof.
  cbn zeta. unfold compare_file_metadata. cbn.
  destruct (compare_loop_spec old (map_to_list new) locals0) as (Hn & Hu & Hc & _).
  by rewrite Hn, Hu, Hc.
Qed.

Lemma compare_lists_perm old new :
  let r := compare_file_metadata old new in
  new_files r ++ updated_files r ++ unchanged_files r ≡ₚ (map_to_list new).*1.
Proof.
  cbn zeta. destruct (compare_lists old new) as (-> & -> & ->).
  apply keys_with_partition.
Qed.

(** C1: the lists of new, updated and unchanged identities partition the
    keys of the current table: their union is the key set, they are
    pairwise disjoint, no identity is listed twice, and the three counts
    add up to the number of current items. *)
Theorem change_set_partitions_current (old new : gmap string file_info) :
  let r := compare_file_metadata old new in
  let N : gset string := list_to_set (new_files r) in
  let U : gset string := list_to_set (updated_files r) in
  let C : gset string := list_to_set (unchanged_files r) in
  N ∪ U ∪ C = dom new ∧
  N ## U ∧ N ## C ∧ U ## C ∧
  NoDup (new_files r ++ updated_files r ++ unchanged_files r) ∧
  new_count (summary r) + updated_count (summary r) + unchanged_count (summary r)
    = total_files (file_count_analysis r).
Proof.
  cbn zeta.
  pose proof (compare_lists_perm old new) as Hperm. cbn zeta in Hperm.
  assert (Hnd : NoDup (new_files (compare_file_metadata old new) ++
                       updated_files (compare_file_metadata old new) ++
                       unchanged_files (compare_file_metadata old new))).
  { rewrite Hperm. apply NoDup_fst_map_to_list. }
  split; [|split; [|split; [|split; [|split]]]].
  - apply set_eq. intros k. rewrite elem_of_dom, !elem_of_union, !elem_of_list_to_set.
    rewrite <- !elem_of_app, <- app_assoc, Hperm.
    rewrite list_elem_of_fmap. split.
    + intros [[k' m] [-> Hin%elem_of_map_to_list]]. by exists m.
    + intros [m Hm]. exists (k, m). by rewrite elem_of_map_to_list.
  - apply NoDup_app in Hnd as (_ & Hd & _).
    intros k Hn%elem_of_list_to_set Hu%elem_of_list_to_set.
    apply (Hd k Hn). apply elem_of_app. by left.
  - apply NoDup_app in Hnd as (_ & Hd & _).
    intros k Hn%elem_of_list_to_set Hu%elem_of_list_to_set.
    apply (Hd k Hn). apply elem_of_app. by right.
  - apply NoDup_app in Hnd as (_ & _ & Hnd).
    apply NoDup_app in Hnd as (_ & Hd & _).
    intros k Hn%elem_of_list_to_set Hu%elem_of_list_to_set.
    by apply (Hd k Hn).
  - done.
  - apply Permutation_length in Hperm. rewrite !length_app, length_fmap in Hperm.
    rewrite Nat.add_assoc in Hperm. unfold compare_file_metadata in *. cbn in *.
    rewrite Hperm. by rewrite length_map_to_list.
Qed.

(** Reconciling a table with itself classifies every key as unchanged. *)
Theorem reconcile_with_itself (S : gmap string file_info) :
  let r := compare_file_metadata S S in
  new_files r = [] ∧ updated_files r = [] ∧
  unchanged_files r = (map_to_list S).*1 ∧
  unchanged_count (summary r) = size S.
Proof.
  cbn zeta. destruct (compare_lists S S) as (Hn & Hu & Hc).
  assert (H : ∀ items : list (string * file_info),
            (∀ k m, (k, m) ∈ items → S !! k = Some m) →
            keys_with New S items = [] ∧ keys_with Updated S items = [] ∧
            keys_with Unchanged S items = items.*1).
  { induction items as [|[k m] items IH]; intros Hin; [done|].
    destruct IH as (IH1 & IH2 & IH3).
    { intros k' m' H'. apply Hin. by right. }
    rewrite !keys_with_cons. unfold classify. rewrite (Hin k m) by (by left).
    rewrite (decide_True (P := fi_content_hash m = fi_content_hash m)) by done.
    rewrite !decide_False by done. rewrite decide_True by done.
    cbn. by rewrite IH1, IH2, IH3. }
  destruct (H (map_to_list S)) as (H1 & H2 & H3).
  { intros k m. apply elem_of_map_to_list. }
  rewrite Hn, Hu, Hc, H1, H2, H3. repeat split.
  unfold compare_file_metadata. cbn.
  destruct (compare_loop_spec S (map_to_list S) locals0) as (_ & _ & -> & _).
  cbn. by rewrite H3, length_fmap, length_map_to_list.
Qed.
End repo_reconciler.

(** ** Aggregates *)

Section aggregates.
Import monitor_repo_directory.


Lemma round_div_exact n k : (0 < n)%Z → py.round_div (n * k) n = k.
Proof.
  intros Hn. unfold py.round_div.
  replace (n * k)%Z with (k * n)%Z by lia.
  rewrite Z.div_mul, Z.mod_mul by lia.
  by rewrite decide_True by lia.
Qed.

End aggregates.

(** The sizes 100, 200 and 300 average to 200. *)
Example average_of_three :
  monitor_repo_directory.average_size (monitor_repo_directory.file_count_analysis
    (monitor_repo_directory.compare_file_metadata ∅
       (<["a.md" := mk_file 100 "H1"]> (<["b.md" := mk_file 200 "H2"]> (<["c.md" := mk_file 300 "H3"]> ∅))))) = 200%Z.
Proof. vm_compute. reflexivity. Qed.

(** ** The feed reconciler *)

Section feed_reconciler.
Import monitor_rss_feed.

Lemma old_entries_dict_dom old : dom (old_entries_dict old) = stored_ids old.
Proof.
  unfold old_entries_dict, stored_ids.
  assert (H : ∀ d : gmap string entry,
    dom (foldl (λ d e, match e_id e with Some i => <[i:=e]> d | None => d end) d old)
    = dom d ∪ list_to_set (omap e_id old)).
  { induction old as [|e old IH]; intros d; cbn.
    - by rewrite union_empty_r_L.
    - rewrite IH. destruct (e_id e) as [i|]; cbn; [|done].
      rewrite dom_insert_L. by rewrite (union_comm_L {[i]}), <- union_assoc_L. }
  rewrite H. by rewrite dom_empty_L, union_empty_l_L.
Qed.

Lemma truthy_default (o : option string) : py.truthy (Some (default "" o)) = py.truthy o.
Proof. by destruct o as [[|]|]. Qed.

Lemma compare_step_fresh P old st e :
  compare_step P (old_entries_dict old) st e =
  if fresh old e then
    let stamped := set_detected_date e (isoformat P (clock P (l_tick st))) in
    {| l_new_entries := l_new_entries st ++ [stamped];
       l_total_new := S (l_total_new st);
       l_seen := l_seen st ++ [stamped];
       l_tick := S (l_tick st) |}
  else
    {| l_new_entries := l_new_entries st; l_total_new := l_total_new st;
       l_seen := l_seen st ++ [e]; l_tick := l_tick st |}.
Proof.
  unfold compare_step, fresh. rewrite truthy_default.
  destruct (py.truthy (e_id e)); cbn; [|done].
  destruct (old_entries_dict old !! default "" (e_id e)) as [x|] eqn:Hd.
  - rewrite bool_decide_eq_false_2; [done|].
    intros Hn. apply Hn. rewrite <- old_entries_dict_dom. apply elem_of_dom. by exists x.
  - rewrite bool_decide_eq_true_2; [done|].
    rewrite <- old_entries_dict_dom. by apply not_elem_of_dom.
Qed.

Lemma feed_loop_spec P old entries st :
  let st' := foldl (compare_step P (old_entries_dict old)) st entries in
  ∃ news seen,
    l_new_entries st' = l_new_entries st ++ news ∧
    Forall2 stamped news (filter (λ e, fresh old e = true) entries) ∧
    l_total_new st' = l_total_new st + length news ∧
    l_seen st' = l_seen st ++ seen ∧
    Forall2 (λ s e, s = e ∨ stamped s e) seen entries ∧
    l_tick st' = l_tick st + length news.
Proof.
  revert st. induction entries as [|e entries IH]; intros st; cbn zeta.
  - exists [], []. cbn. rewrite !app_nil_r. repeat split; try constructor; lia.
  - cbn [foldl]. specialize (IH (compare_step P (old_entries_dict old) st e)).
    cbn zeta in IH. destruct IH as (news & seen & Hn & Hf & Ht & Hs & Hfs & Htk).
    rewrite filter_cons. rewrite compare_step_fresh in *.
    destruct (fresh old e) eqn:Hfresh; cbn in *.
    + rewrite decide_True by done.
      eexists (_ :: news), (_ :: seen). rewrite Hn, Ht, Hs, Htk, <- !app_assoc. cbn.
      repeat split; try lia.
      * constructor; [by eexists|done].
      * constructor; [right; by eexists|done].
    + rewrite decide_False by done.
      exists news, (e :: seen). rewrite Hn, Ht, Hs, Htk, <- !app_assoc. cbn.
      repeat split; try done. constructor; [by left|done].
Qed.

Lemma compare_feed_entries_spec P t old new :
  let '(c, seen, t') := compare_feed_entries P t old new in
  Forall2 stamped (new_entries c) (filter (λ e, fresh old e = true) new) ∧
  total_new c = length (new_entries c) ∧
  Forall2 (λ s e, s = e ∨ stamped s e) seen new ∧
  t' = S t + total_new c.
Proof.
  unfold compare_feed_entries, analyze_entries_for_cleanup, datetime_now.
  cbn zeta.
  match goal with |- context [foldl ?f ?st new] =>
    destruct (feed_loop_spec P old new st) as (news & seen & Hn & Hf & Ht & Hs & Hfs & Htk)
  end.
  cbn in *. rewrite Hn, Ht, Hs, Htk. done.
Qed.
End feed_reconciler.

Section feed_reconciler_more.
Import monitor_rss_feed.

Lemma fresh_spec old e :
  fresh old e = true ↔
  ∃ i, e_id e = Some i ∧ i ≠ "" ∧ ∀ o, o ∈ old → e_id o ≠ Some i.
Proof.
  unfold fresh, stored_ids. rewrite andb_true_iff, bool_decide_eq_true.
  rewrite elem_of_list_to_set, list_elem_of_omap. split.
  - intros [Ht Hn]. destruct (e_id e) as [[|c s]|] eqn:He; try done.
    eexists; split; [done|]. split; [done|]. intros o Ho Hid. apply Hn. by exists o.
  - intros (i & -> & Hi & Hn). split; [by destruct i|].
    cbn. intros (o & Ho & Hid). by apply (Hn o).
Qed.

Lemma feed_loop_ext P old old' entries st :
  (∀ e, e ∈ entries → fresh old e = fresh old' e) →
  foldl (compare_step P (old_entries_dict old)) st entries =
  foldl (compare_step P (old_entries_dict old')) st entries.
Proof.
  revert st. induction entries as [|e entries IH]; intros st Hext; [done|].
  cbn [foldl]. rewrite !compare_step_fresh, (Hext e) by (by left).
  apply IH. intros e' He'. apply Hext. by right.
Qed.

Lemma insert_desc_perm x l : insert_desc x l ≡ₚ x :: l.
Proof.
  induction l as [|y l IH]; [done|]. cbn. case_decide; [done|].
  rewrite IH. apply perm_swap.
Qed.

Lemma sort_desc_perm l : sort_desc l ≡ₚ l.
Proof.
  induction l as [|x l IH]; [done|]. cbn. by rewrite insert_desc_perm, IH.
Qed.

Lemma oldest_entries_from_current P t old new x :
  x ∈ oldest_entries (analyze_entries_for_cleanup P t old new).1 →
  ∃ e, e ∈ new ∧ ei_id x = default "" (e_id e).
Proof.
  unfold analyze_entries_for_cleanup, datetime_now. cbn.
  intros Hx%subseteq_take. rewrite sort_desc_perm in Hx.
  apply list_elem_of_fmap in Hx as (e & -> & He). by exists e.
Qed.

Lemma stamped_id n e : stamped n e → e_id n = e_id e.
Proof. by intros [s ->]. Qed.

Lemma new_entries_from_current P t old new n :
  n ∈ new_entries (compare_feed_entries P t old new).1.1 →
  ∃ e, e ∈ new ∧ fresh old e = true ∧ stamped n e.
Proof.
  pose proof (compare_feed_entries_spec P t old new) as H.
  destruct (compare_feed_entries P t old new) as [[c seen] t']. cbn.
  destruct H as (Hf & _). intros Hn.
  apply list_elem_of_lookup in Hn as [j Hj].
  destruct (Forall2_lookup_l _ _ _ _ _ Hf Hj) as (e & He & Hst).
  apply list_elem_of_lookup_2 in He. apply list_elem_of_filter in He as [??].
  by exists e.
Qed.
End feed_reconciler_more.

(** ** Classification *)

(** The two scenarios of the specification: a file added next to an
    unchanged one, and a file whose fingerprint changed. *)
Example scenario_new_and_unchanged :
  let previous : gmap string file_info := {[ "a.md" := mk_file 10 "H1" ]} in
  let current : gmap string file_info :=
    <["a.md" := mk_file 10 "H1"]> {[ "b.md" := mk_file 20 "H2" ]} in
  let r := monitor_repo_directory.compare_file_metadata previous current in
  monitor_repo_directory.new_files r = ["b.md"] ∧
  monitor_repo_directory.updated_files r = [] ∧
  monitor_repo_directory.unchanged_files r = ["a.md"].
Proof. by vm_compute. Qed.

Example scenario_updated :
  let previous : gmap string file_info := {[ "a.md" := mk_file 10 "H1" ]} in
  let current : gmap string file_info := {[ "a.md" := mk_file 10 "H2" ]} in
  let r := monitor_repo_directory.compare_file_metadata previous current in
  monitor_repo_directory.new_files r = [] ∧
  monitor_repo_directory.updated_files r = ["a.md"] ∧
  monitor_repo_directory.unchanged_files r = [].
Proof. by vm_compute. Qed.

Section classification.
Import monitor_repo_directory.

(** C2, as stated, fails on the feed reconciler: an entry stored with
    another fingerprint is not reported as updated (the result has no such
    class), and an entry without an id that is not stored is not reported
    as new. *)
Lemma feed_reconciler_reports_only_fresh_ids :
  let previous := [mk_entry "e1" "H1"] in
  let current := [mk_entry "e1" "H2"; mk_entry "" "H3"] in
  let c := (monitor_rss_feed.compare_feed_entries (sample_platform ∅ []) 0
              previous current).1.1 in
  fresh previous (mk_entry "" "H3") = false ∧
  e_content_hash (mk_entry "e1" "H1") ≠ e_content_hash (mk_entry "e1" "H2") ∧
  monitor_rss_feed.new_entries c = [] ∧
  monitor_rss_feed.total_new c = 0.
Proof. cbn zeta. split; [done|]. split; [done|]. by vm_compute. Qed.

(** C2 (amended): the repository reconciler classifies a current identity
    as new exactly when it is absent from the previous table, as unchanged
    exactly when it is stored with an equal fingerprint, and as updated
    exactly when it is stored with a different one.  The feed reconciler
    only has the class new: its new entries are, in order, the current
    entries whose id is non-empty and not stored, each with a detection
    stamp; an entry whose id is stored is not reported, whatever its
    fingerprint. *)
Theorem classification_of_current_items
    (P : Platform) (t : nat) (old new : gmap string file_info)
    (old_entries new_entries : list entry) (k : string) :
  let r := compare_file_metadata old new in
  let c := (monitor_rss_feed.compare_feed_entries P t old_entries new_entries).1.1 in
  (k ∈ new_files r ↔ ∃ m, new !! k = Some m ∧ old !! k = None) ∧
  (k ∈ unchanged_files r ↔
     ∃ m o, new !! k = Some m ∧ old !! k = Some o ∧ fi_content_hash o = fi_content_hash m) ∧
  (k ∈ updated_files r ↔
     ∃ m o, new !! k = Some m ∧ old !! k = Some o ∧ fi_content_hash o ≠ fi_content_hash m) ∧
  Forall2 stamped (monitor_rss_feed.new_entries c)
    (filter (λ e, fresh old_entries e = true) new_entries) ∧
  monitor_rss_feed.total_new c = length (monitor_rss_feed.new_entries c).
Proof.
  cbn zeta. destruct (compare_lists old new) as (-> & -> & ->).
  rewrite !elem_of_keys_with.
  split; [|split; [|split]].
  - split.
    + intros (m & Hm & Hc). exists m. split; [done|]. unfold classify in Hc.
      destruct (old !! k); [by case_decide|done].
    + intros (m & Hm & Ho). exists m. split; [done|]. unfold classify. by rewrite Ho.
  - split.
    + intros (m & Hm & Hc). unfold classify in Hc.
      destruct (old !! k) as [o|] eqn:Ho; [|done]. exists m, o. by case_decide.
    + intros (m & o & Hm & Ho & Hh). exists m. split; [done|].
      unfold classify. rewrite Ho. by rewrite decide_True.
  - split.
    + intros (m & Hm & Hc). unfold classify in Hc.
      destruct (old !! k) as [o|] eqn:Ho; [|done]. exists m, o. by case_decide.
    + intros (m & o & Hm & Ho & Hh). exists m. split; [done|].
      unfold classify. rewrite Ho. by rewrite decide_False.
  - pose proof (compare_feed_entries_spec P t old_entries new_entries) as H.
    destruct (monitor_rss_feed.compare_feed_entries P t old_entries new_entries)
      as [[c seen] t']. cbn. by destruct H as (? & ? & _).
Qed.
End classification.

(** ** A previous snapshot that cannot be loaded *)

Section fail_soft.

Lemma load_previous_files_unreadable P fs p :
  unreadable (json_load_files P) fs p →
  monitor_repo_directory.load_previous_files P fs p = ∅.
Proof.
  unfold monitor_repo_directory.load_previous_files.
  intros [-> | (txt & -> & ->)]; done.
Qed.

Lemma load_previous_entries_unreadable P fs p :
  unreadable (json_load_entries P) fs p →
  monitor_rss_feed.load_previous_entries P fs p = [].
Proof.
  unfold monitor_rss_feed.load_previous_entries.
  intros [-> | (txt & -> & ->)]; done.
Qed.

Lemma keys_with_empty_previous items :
  keys_with New ∅ items = items.*1 ∧
  keys_with Updated ∅ items = [] ∧
  keys_with Unchanged ∅ items = [].
Proof.
  induction items as [|[k m] items (IH1 & IH2 & IH3)]; [done|].
  rewrite !keys_with_cons. unfold classify. rewrite lookup_empty.
  rewrite decide_True, !decide_False by done. cbn. by rewrite IH1.
Qed.

Lemma fresh_empty_previous e : fresh [] e = py.truthy (e_id e).
Proof.
  unfold fresh, stored_ids. cbn. rewrite bool_decide_eq_true_2; [|set_solver].
  by rewrite andb_true_r.
Qed.

(** C3, as stated, fails on the feed path: with no stored file, a current
    entry whose id is empty is skipped instead of being reported as new. *)
Lemma entry_without_id_is_skipped :
  let current := [mk_entry "" "H1"] in
  let c := (monitor_rss_feed.main_compare (sample_platform ∅ []) 0 empty_fs
              "rss-content/feed-0" current).1.1 in
  fs_read empty_fs (path_join "rss-content/feed-0" "feed_entries.json") = None ∧
  monitor_rss_feed.new_entries c = [] ∧
  monitor_rss_feed.total_new c = 0.
Proof. by vm_compute. Qed.

(** C3 (amended): when the stored previous snapshot is missing or fails to
    parse, the comparison runs against an empty previous snapshot.  Every
    current repository file is reported as new and none as updated or
    unchanged; every current feed entry with a non-empty id is reported as
    new (feed entries with an empty id are skipped). *)
Theorem unreadable_previous_snapshot_is_empty
    (P : Platform) (t : nat) (fs : FS) (repo_content_path feed_dir : string)
    (current_metadata : gmap string file_info) (current_entries : list entry) :
  let r := monitor_repo_directory.main_compare P fs repo_content_path current_metadata in
  let c := (monitor_rss_feed.main_compare P t fs feed_dir current_entries).1.1 in
  (unreadable (json_load_files P) fs (path_join repo_content_path "files_data.json") →
   monitor_repo_directory.new_files r = (map_to_list current_metadata).*1 ∧
   monitor_repo_directory.updated_files r = [] ∧
   monitor_repo_directory.unchanged_files r = [] ∧
   (∀ k, k ∈ dom current_metadata ↔ k ∈ monitor_repo_directory.new_files r)) ∧
  (unreadable (json_load_entries P) fs (path_join feed_dir "feed_entries.json") →
   Forall2 stamped (monitor_rss_feed.new_entries c)
     (filter (λ e, py.truthy (e_id e) = true) current_entries) ∧
   monitor_rss_feed.total_new c
     = length (filter (λ e, py.truthy (e_id e) = true) current_entries)).
Proof.
  cbn zeta. split.
  - intros Hfiles. unfold monitor_repo_directory.main_compare.
    rewrite (load_previous_files_unreadable _ _ _ Hfiles).
    destruct (compare_lists ∅ current_metadata) as (-> & -> & ->).
    destruct (keys_with_empty_previous (map_to_list current_metadata)) as (-> & -> & ->).
    split; [done|]. split; [done|]. split; [done|].
    intros k. rewrite elem_of_dom, list_elem_of_fmap. split.
    + intros [m Hm]. exists (k, m). by rewrite elem_of_map_to_list.
    + intros [[k' m] [-> Hin%elem_of_map_to_list]]. by exists m.
  - intros Hentries. unfold monitor_rss_feed.main_compare.
    rewrite (load_previous_entries_unreadable _ _ _ Hentries).
    pose proof (compare_feed_entries_spec P t [] current_entries) as H.
    destruct (monitor_rss_feed.compare_feed_entries P t [] current_entries)
      as [[c seen] t']. cbn. destruct H as (Hf & Hn & _).
    assert (Heq : filter (λ e, fresh [] e = true) current_entries
                  = filter (λ e, py.truthy (e_id e) = true) current_entries).
    { apply list_filter_iff. intros e. by rewrite fresh_empty_previous. }
    rewrite Heq in Hf. split; [done|].
    rewrite Hn. by apply Forall2_length in Hf.
Qed.

(** The amended C3 on a store without a files table and with a feed file
    that is not JSON. *)
Lemma unreadable_previous_snapshot_is_empty_witness :
  let P := sample_platform ∅ [] in
  let r := monitor_repo_directory.main_compare P sample_broken_store "repo-content"
             sample_current_files in
  let c := (monitor_rss_feed.main_compare P 0 sample_broken_store "feeds/feed-0"
              sample_current_entries).1.1 in
  (monitor_repo_directory.new_files r = (map_to_list sample_current_files).*1 ∧
   monitor_repo_directory.updated_files r = [] ∧
   monitor_repo_directory.unchanged_files r = [] ∧
   (∀ k, k ∈ dom sample_current_files ↔ k ∈ monitor_repo_directory.new_files r)) ∧
  (Forall2 stamped (monitor_rss_feed.new_entries c)
     (filter (λ e, py.truthy (e_id e) = true) sample_current_entries) ∧
   monitor_rss_feed.total_new c
     = length (filter (λ e, py.truthy (e_id e) = true) sample_current_entries)).
Proof.
  cbn zeta.
  destruct (unreadable_previous_snapshot_is_empty (sample_platform ∅ []) 0
              sample_broken_store "repo-content" "feeds/feed-0"
              sample_current_files sample_current_entries) as [Hrepo Hfeed].
  split.
  - apply Hrepo. left. reflexivity.
  - apply Hfeed. right. exists "not json". split; reflexivity.
Defined.
End fail_soft.

(** ** Identities that are only in the previous snapshot *)

Section no_deletion.
Import monitor_repo_directory.

Lemma compare_loop_ext old old' items st :
  (∀ k m, (k, m) ∈ items → old !! k = old' !! k) →
  compare_loop old items st = compare_loop old' items st.
Proof.
  unfold compare_loop. revert st.
  induction items as [|[k m] items IH]; intros st Hext; [done|].
  cbn [foldl].
  assert (Hk : compare_step old st (k, m) = compare_step old' st (k, m)).
  { unfold compare_step. by rewrite (Hext k m) by (by left). }
  rewrite Hk. apply IH. intros k' m' Hin. apply (Hext k' m'). by right.
Qed.

Lemma compare_file_metadata_ext old old' new :
  (∀ k, is_Some (new !! k) → old !! k = old' !! k) →
  compare_file_metadata old new = compare_file_metadata old' new.
Proof.
  intros Hext. unfold compare_file_metadata.
  rewrite (compare_loop_ext old old'); [done|].
  intros k m Hin%elem_of_map_to_list. apply Hext. by exists m.
Qed.

Lemma stored_ids_filter (k : string) (old_entries : list entry) :
  stored_ids (filter (λ o, e_id o ≠ Some k) old_entries) = stored_ids old_entries ∖ {[k]}.
Proof.
  unfold stored_ids. apply set_eq. intros i.
  rewrite elem_of_difference, !elem_of_list_to_set, !list_elem_of_omap, elem_of_singleton.
  split.
  - intros (o & [Hne Ho]%list_elem_of_filter & Hid). split; [by exists o|congruence].
  - intros [(o & Ho & Hid) Hne]. exists o. split; [|done].
    apply list_elem_of_filter. split; [congruence|done].
Qed.

Lemma fresh_filter (k : string) (old_entries : list entry) (e : entry) :
  default "" (e_id e) ≠ k →
  fresh (filter (λ o, e_id o ≠ Some k) old_entries) e = fresh old_entries e.
Proof.
  intros Hne. unfold fresh. f_equal. rewrite stored_ids_filter.
  apply bool_decide_ext. rewrite elem_of_difference, elem_of_singleton. tauto.
Qed.

(** C8, as stated, fails on the feed reconciler: its cleanup analysis
    counts the stored entries, so an entry that is stored and no longer in
    the feed shows in [total_stored] and in [entry_growth]. *)
Lemma stored_only_entry_is_counted :
  let P := sample_platform ∅ [] in
  let current := [mk_entry "kept" "H2"] in
  let with_gone :=
    (monitor_rss_feed.compare_feed_entries P 0 [mk_entry "gone" "H1"] current).1.1 in
  let without :=
    (monitor_rss_feed.compare_feed_entries P 0 [] current).1.1 in
  monitor_rss_feed.total_stored (monitor_rss_feed.cleanup_analysis with_gone) = 1 ∧
  monitor_rss_feed.entry_growth (monitor_rss_feed.cleanup_analysis with_gone) = 0%Z ∧
  monitor_rss_feed.total_stored (monitor_rss_feed.cleanup_analysis without) = 0 ∧
  monitor_rss_feed.entry_growth (monitor_rss_feed.cleanup_analysis without) = 1%Z.
Proof. by vm_compute. Qed.

(** C8 (amended): an identity that is in the previous snapshot and not in
    the current one is in none of the lists the reconcilers return (new,
    updated, unchanged files; new entries; oldest entries) and in none of
    the counts of classified or current items: the repository result is
    the same as without it, and so are the feed result's new entries,
    [total_new], [total_entries], oldest entries and age distribution.
    No class for deletions exists.  The feed reconciler's [total_stored]
    and [entry_growth] are computed from the length of the previous list
    and do count it. *)
Theorem previous_only_identity_is_not_reported
    (P : Platform) (t : nat) (old new : gmap string file_info)
    (old_entries new_entries : list entry) (k : string) :
  let r := compare_file_metadata old new in
  let c := (monitor_rss_feed.compare_feed_entries P t old_entries new_entries).1.1 in
  let c' := (monitor_rss_feed.compare_feed_entries P t
               (filter (λ o, e_id o ≠ Some k) old_entries) new_entries).1.1 in
  let a := monitor_rss_feed.cleanup_analysis c in
  let a' := monitor_rss_feed.cleanup_analysis c' in
  (new !! k = None →
   ((k ∉ new_files r) ∧ (k ∉ updated_files r) ∧ (k ∉ unchanged_files r)) ∧
   compare_file_metadata (delete k old) new = r) ∧
  ((∀ e, e ∈ new_entries → default "" (e_id e) ≠ k) →
   (∀ n, n ∈ monitor_rss_feed.new_entries c → default "" (e_id n) ≠ k) ∧
   (∀ x, x ∈ monitor_rss_feed.oldest_entries a → monitor_rss_feed.ei_id x ≠ k) ∧
   monitor_rss_feed.new_entries c' = monitor_rss_feed.new_entries c ∧
   monitor_rss_feed.total_new c' = monitor_rss_feed.total_new c ∧
   monitor_rss_feed.total_entries a' = monitor_rss_feed.total_entries a ∧
   monitor_rss_feed.oldest_entries a' = monitor_rss_feed.oldest_entries a ∧
   monitor_rss_feed.entry_age_distribution a' = monitor_rss_feed.entry_age_distribution a).
Proof.
  cbn zeta. split.
  - intros Hk. split.
    + destruct (compare_lists old new) as (-> & -> & ->).
      rewrite !elem_of_keys_with. rewrite Hk.
      repeat split; intros (m & Hm & _); done.
    + apply compare_file_metadata_ext. intros k' [m Hm].
      apply lookup_delete_ne. congruence.
  - intros Hcur. split; [|split].
    + intros n Hn. apply new_entries_from_current in Hn as (e & He & _ & Hst).
      rewrite (stamped_id _ _ Hst). by apply Hcur.
    + intros x Hx. apply oldest_entries_from_current in Hx as (e & He & ->).
      by apply Hcur.
    + unfold monitor_rss_feed.compare_feed_entries,
        monitor_rss_feed.analyze_entries_for_cleanup, datetime_now. cbn.
      rewrite (feed_loop_ext P (filter (λ o, e_id o ≠ Some k) old_entries) old_entries).
      * done.
      * intros e He. apply fresh_filter. by apply Hcur.
Qed.

(** The amended C8 on tables and lists that share one identity and drop
    the identity [gone.md]. *)
Lemma previous_only_identity_is_not_reported_witness :
  let P := sample_platform ∅ [] in
  let r := compare_file_metadata sample_old_files sample_current_files in
  let c := (monitor_rss_feed.compare_feed_entries P 0
              sample_old_entries sample_new_entries).1.1 in
  let c' := (monitor_rss_feed.compare_feed_entries P 0
               (filter (λ o, e_id o ≠ Some "gone.md") sample_old_entries)
               sample_new_entries).1.1 in
  let a := monitor_rss_feed.cleanup_analysis c in
  let a' := monitor_rss_feed.cleanup_analysis c' in
  ((("gone.md" ∉ new_files r) ∧ ("gone.md" ∉ updated_files r) ∧
    ("gone.md" ∉ unchanged_files r)) ∧
   compare_file_metadata (delete "gone.md" sample_old_files) sample_current_files = r) ∧
  ((∀ n, n ∈ monitor_rss_feed.new_entries c → default "" (e_id n) ≠ "gone.md") ∧
   (∀ x, x ∈ monitor_rss_feed.oldest_entries a → monitor_rss_feed.ei_id x ≠ "gone.md") ∧
   monitor_rss_feed.new_entries c' = monitor_rss_feed.new_entries c ∧
   monitor_rss_feed.total_new c' = monitor_rss_feed.total_new c ∧
   monitor_rss_feed.total_entries a' = monitor_rss_feed.total_entries a ∧
   monitor_rss_feed.oldest_entries a' = monitor_rss_feed.oldest_entries a ∧
   monitor_rss_feed.entry_age_distribution a' = monitor_rss_feed.entry_age_distribution a).
Proof.
  cbn zeta.
  destruct (previous_only_identity_is_not_reported (sample_platform ∅ []) 0
              sample_old_files sample_current_files
              sample_old_entries sample_new_entries "gone.md") as [Hrepo Hfeed].
  split.
  - apply Hrepo. reflexivity.
  - apply Hfeed. intros e He. apply list_elem_of_In in He. simpl in He.
    destruct He as [<- | [<- | []]]; discriminate.
Defined.
End no_deletion.

(** ** Running the reconcilers again *)

Section reruns.
Import monitor_repo_directory.

Lemma Forall2_filter_rel {A B : Type} (R : A → B → Prop) (p : A → bool) (q : B → bool)
    (l1 : list A) (l2 : list B) :
  Forall2 R l1 l2 → (∀ x y, R x y → p x = q y) →
  Forall2 R (filter (λ x, p x = true) l1) (filter (λ y, q y = true) l2).
Proof.
  intros HF Hpq. induction HF as [|x y l1 l2 HR HF IH]; [constructor|].
  rewrite !filter_cons. rewrite (Hpq x y HR).
  destruct (q y); cbn.
  - rewrite !decide_True by done. by constructor.
  - rewrite !decide_False by done. done.
Qed.

Lemma stamped_restamped n n' e : stamped n e → stamped n' e → restamped n n'.
Proof. intros [s ->] [s' ->]. by exists s'. Qed.

Lemma fresh_same_id old e e' : e_id e = e_id e' → fresh old e = fresh old e'.
Proof. unfold fresh. by intros ->. Qed.

Lemma new_entries_restamped P P' t t' old cur cur' :
  Forall2 (λ s e, s = e ∨ stamped s e) cur' cur →
  Forall2 restamped
    (monitor_rss_feed.new_entries (monitor_rss_feed.compare_feed_entries P t old cur).1.1)
    (monitor_rss_feed.new_entries (monitor_rss_feed.compare_feed_entries P' t' old cur').1.1).
Proof.
  intros Hcur.
  pose proof (compare_feed_entries_spec P t old cur) as H.
  pose proof (compare_feed_entries_spec P' t' old cur') as H'.
  destruct (monitor_rss_feed.compare_feed_entries P t old cur) as [[c seen] t1].
  destruct (monitor_rss_feed.compare_feed_entries P' t' old cur') as [[c' seen'] t1'].
  cbn. destruct H as (Hf & _). destruct H' as (Hf' & _).
  assert (Hfil : Forall2 (λ s e, s = e ∨ stamped s e)
            (filter (λ e, fresh old e = true) cur')
            (filter (λ e, fresh old e = true) cur)).
  { apply Forall2_filter_rel; [done|]. intros s e [-> | Hst]; [done|].
    apply fresh_same_id. by apply stamped_id. }
  clear Hcur. revert Hf Hf' Hfil.
  generalize (filter (λ e, fresh old e = true) cur).
  generalize (filter (λ e, fresh old e = true) cur').
  generalize (monitor_rss_feed.new_entries c).
  generalize (monitor_rss_feed.new_entries c').
  intros news' news fs' fs Hf. revert news' fs'.
  induction Hf as [|n e news fs Hn Hf IH]; intros news' fs' Hf' Hfil.
  - inversion Hfil; subst. inversion Hf'; subst. constructor.
  - inversion Hfil as [|s e0 fs1 fs0 Hs Hfil']; subst.
    inversion Hf' as [|n' s0 news1 fs2 Hn' Hf'']; subst.
    constructor; [|by apply (IH _ _ Hf'' Hfil')].
    destruct Hn as [s1 ->]. destruct Hn' as [s2 ->].
    destruct Hs as [-> | [s3 ->]]; by exists s2.
Qed.

(** C9, as stated, fails on the feed reconciler: its result carries the
    time of the run.  With one stored entry and one fresh entry, a first
    run (clock index 0) and a second run on the same two lists (started at
    the clock index the first run ended at) stamp the fresh entry with
    different detection dates. *)
Lemma feed_reruns_differ :
  let P := sample_platform ∅ [] in
  let previous := [mk_entry "e0" "H0"] in
  let current := [mk_entry "e0" "H0"; mk_entry "e1" "H1"] in
  let first := monitor_rss_feed.compare_feed_entries P 0 previous current in
  let second := monitor_rss_feed.compare_feed_entries P first.2 previous first.1.2 in
  first.2 = 2 ∧
  monitor_rss_feed.new_entries first.1.1
    = [monitor_rss_feed.set_detected_date (mk_entry "e1" "H1") "2026-11-03T12:00:01"] ∧
  monitor_rss_feed.new_entries second.1.1
    = [monitor_rss_feed.set_detected_date (mk_entry "e1" "H1") "2026-11-03T12:00:03"] ∧
  first.1.1 ≠ second.1.1.
Proof.
  cbn zeta. split; [by vm_compute|]. split; [by vm_compute|]. split; [by vm_compute|].
  intros Heq. apply (f_equal monitor_rss_feed.new_entries) in Heq.
  vm_compute in Heq. discriminate Heq.
Qed.

(** C9 (amended): the repository reconciler is a function of its two
    arguments alone: it returns the current table untouched, so running it
    again on what it returned yields the same result.  The feed
    reconciler's result also depends on the clock: two runs on the same
    previous and current lists, at any two times (the second one possibly
    on the list as the first run left it), report the same new entries in
    the same order up to their detection stamps, the same [total_new] and
    the same [total_entries], [total_stored] and [entry_growth]; the
    detection stamps and the ages in the cleanup analysis are those of the
    run. *)
Theorem reruns_agree_up_to_the_clock
    (P P' : Platform) (t t' : nat) (old new : gmap string file_info)
    (old_entries new_entries : list entry) :
  let r := compare_file_metadata old new in
  let first := monitor_rss_feed.compare_feed_entries P t old_entries new_entries in
  let again := monitor_rss_feed.compare_feed_entries P' t' old_entries new_entries in
  let rerun := monitor_rss_feed.compare_feed_entries P' t' old_entries first.1.2 in
  let a := monitor_rss_feed.cleanup_analysis in
  monitored_files r = new ∧
  compare_file_metadata old (monitored_files r) = r ∧
  Forall2 restamped (monitor_rss_feed.new_entries first.1.1)
    (monitor_rss_feed.new_entries again.1.1) ∧
  Forall2 restamped (monitor_rss_feed.new_entries first.1.1)
    (monitor_rss_feed.new_entries rerun.1.1) ∧
  monitor_rss_feed.total_new again.1.1 = monitor_rss_feed.total_new first.1.1 ∧
  monitor_rss_feed.total_new rerun.1.1 = monitor_rss_feed.total_new first.1.1 ∧
  monitor_rss_feed.total_entries (a again.1.1) = monitor_rss_feed.total_entries (a first.1.1) ∧
  monitor_rss_feed.total_entries (a rerun.1.1) = monitor_rss_feed.total_entries (a first.1.1) ∧
  monitor_rss_feed.total_stored (a again.1.1) = monitor_rss_feed.total_stored (a first.1.1) ∧
  monitor_rss_feed.entry_growth (a again.1.1) = monitor_rss_feed.entry_growth (a first.1.1).
Proof.
  cbn zeta.
  assert (Hseen : Forall2 (λ s e, s = e ∨ stamped s e)
            (monitor_rss_feed.compare_feed_entries P t old_entries new_entries).1.2
            new_entries).
  { pose proof (compare_feed_entries_spec P t old_entries new_entries) as H.
    destruct (monitor_rss_feed.compare_feed_entries P t old_entries new_entries)
      as [[c seen] t1]. cbn. by destruct H as (_ & _ & ? & _). }
  assert (Hsame : Forall2 (λ s e : entry, s = e ∨ stamped s e) new_entries new_entries).
  { apply Forall2_same_length_lookup. split; [done|]. intros i x y Hx Hy. left. congruence. }
  pose proof (new_entries_restamped P P' t t' old_entries _ _ Hsame) as Hagain.
  pose proof (new_entries_restamped P P' t t' old_entries _ _ Hseen) as Hrerun.
  pose proof (compare_feed_entries_spec P t old_entries new_entries) as H1.
  pose proof (compare_feed_entries_spec P' t' old_entries new_entries) as H2.
  pose proof (compare_feed_entries_spec P' t' old_entries
                (monitor_rss_feed.compare_feed_entries P t old_entries new_entries).1.2) as H3.
  assert (Hlen : length (monitor_rss_feed.compare_feed_entries P t old_entries new_entries).1.2
                 = length new_entries) by (by apply Forall2_length in Hseen).
  revert Hagain Hrerun H1 H2 H3 Hlen.
  generalize ((monitor_rss_feed.compare_feed_entries P t old_entries new_entries).1.2).
  intros seen Hagain Hrerun H1 H2 H3 Hlen.
  split; [done|]. split; [done|]. split; [done|]. split; [done|].
  destruct (monitor_rss_feed.compare_feed_entries P t old_entries new_entries)
    as [[c1 s1] u1] eqn:E1.
  destruct (monitor_rss_feed.compare_feed_entries P' t' old_entries new_entries)
    as [[c2 s2] u2] eqn:E2.
  destruct (monitor_rss_feed.compare_feed_entries P' t' old_entries seen)
    as [[c3 s3] u3] eqn:E3.
  cbn in *.
  destruct H1 as (_ & Hn1 & _). destruct H2 as (_ & Hn2 & _). destruct H3 as (_ & Hn3 & _).
  apply Forall2_length in Hagain, Hrerun.
  split; [congruence|]. split; [congruence|].
  unfold monitor_rss_feed.compare_feed_entries, monitor_rss_feed.analyze_entries_for_cleanup,
    datetime_now in E1, E2, E3. cbn in E1, E2, E3.
  injection E1 as <- _ _. injection E2 as <- _ _. injection E3 as <- _ _. cbn.
  rewrite Hlen. done.
Qed.
End reruns.

(** ** Dry-run sweeping *)

Section dry_run.
Import cleanup_content.

Lemma sweep_loop_dry_run repo_content_path candidates st :
  foldl (sweep_step repo_content_path true) st candidates = st.
Proof. induction candidates as [|c candidates IH]; [done|]. cbn [foldl]. exact IH. Qed.

Lemma cleanup_repo_files_dry_run P fs repo_content_path candidates :
  cleanup_repo_files P fs repo_content_path candidates true = (fs, ([], 0%Z)).
Proof. unfold cleanup_repo_files. rewrite sweep_loop_dry_run. reflexivity. Qed.

Lemma cleanup_rss_entries_dry_run P fs rss_content_path candidates :
  cleanup_rss_entries P fs rss_content_path candidates true = (fs, []).
Proof. reflexivity. Qed.

Lemma perform_cleanup_dry_run P fs repo_content_path rss_content_path
    repo_candidates rss_candidates :
  perform_cleanup P fs repo_content_path rss_content_path
    repo_candidates rss_candidates true = (fs, ([], [], 0%Z)).
Proof.
  unfold perform_cleanup.
  destruct repo_candidates as [|c cs]; destruct rss_candidates as [|x xs];
    rewrite ?cleanup_repo_files_dry_run; reflexivity.
Qed.

(** C4: in dry-run mode the sweep changes nothing.  Whatever the stored
    files and the candidates, [cleanup_repo_files], [cleanup_rss_entries]
    and [perform_cleanup] return the file system they were given (the
    snapshot files and the content files, text for text) and report
    nothing removed; and whenever [main] completes, it leaves the file
    system as it found it. *)
Theorem dry_run_sweep_changes_nothing
    (P : Platform) (t : nat) (fs : FS) (repo_content_path rss_content_path : string)
    (repo_candidates : list RepoCandidate) (rss_candidates : list RssCandidate)
    (age_threshold_days : Z) (local_content_dir : string) :
  cleanup_repo_files P fs repo_content_path repo_candidates true = (fs, ([], 0%Z)) ∧
  cleanup_rss_entries P fs rss_content_path rss_candidates true = (fs, []) ∧
  perform_cleanup P fs repo_content_path rss_content_path
    repo_candidates rss_candidates true = (fs, ([], [], 0%Z)) ∧
  (main P t fs age_threshold_days true local_content_dir = py.Ok fs ∨
   ∃ err, main P t fs age_threshold_days true local_content_dir = py.Raise err).
Proof.
  split; [apply cleanup_repo_files_dry_run|].
  split; [apply cleanup_rss_entries_dry_run|].
  split; [apply perform_cleanup_dry_run|].
  unfold main.
  destruct (analyze_repo_files_for_cleanup P t fs
              (path_join local_content_dir "repo-content") age_threshold_days)
    as [[[repo_cands n] sz] t1].
  destruct (analyze_rss_entries_for_cleanup P t1 fs
              (path_join local_content_dir "rss-content") age_threshold_days)
    as [[[rss_cands m] t2]|err]; [|right; by exists err].
  left. destruct repo_cands, rss_cands; rewrite ?perform_cleanup_dry_run; reflexivity.
Qed.

(** The same sweep in destructive mode does remove the content file and
    rewrites both snapshot files. *)
Example destructive_sweep_mutates :
  let P := sample_platform ∅ [] in
  let fs' := (perform_cleanup P sample_store "content/repo-content" "content/rss-content"
                [sample_candidate] [sample_rss_candidate] false).1 in
  perform_cleanup P sample_store "content/repo-content" "content/rss-content"
    [sample_candidate] [sample_rss_candidate] true
    = (sample_store, ([], [], 0%Z)) ∧
  fs_read fs' "content/repo-content/files/old.md" = None ∧
  fs_read sample_store "content/repo-content/files/old.md" = Some "old text" ∧
  (perform_cleanup P sample_store "content/repo-content" "content/rss-content"
     [sample_candidate] [sample_rss_candidate] false).2 = (["old.md"], ["e1"], 10%Z).
Proof. cbn zeta. split; [apply perform_cleanup_dry_run|]. by vm_compute. Qed.
End dry_run.

(** ** Cleanup candidates *)

Section candidates.
Import cleanup_content.

Lemma repo_step_spec P cutoff st k info :
  let st' := repo_step P (py.Naive cutoff) st (k, info) in
  s_total_files st' = S (s_total_files st) ∧
  s_total_size st' = (s_total_size st + default 0 (fi_size info))%Z ∧
  if repo_selected P cutoff info then
    ∃ c, s_candidates st' = s_candidates st ++ [c] ∧ reports_file P c (k, info)
  else s_candidates st' = s_candidates st.
Proof.
  cbn zeta. unfold repo_step, repo_selected, reports_file, added_date_of. cbn [fst snd].
  destruct (py.truthy (fi_added_date info)); [|done].
  destruct (fromisoformat P (py.replace_Z (default "" (fi_added_date info))))
    as [[d|d]|]; cbn.
  - destruct (bool_decide (d < cutoff)%Z); cbn; [|done].
    split; [done|]. split; [done|]. eexists. split; [done|]. cbn. eauto.
  - split; [done|]. split; [done|]. eexists. split; [done|]. done.
  - split; [done|]. split; [done|]. eexists. split; [done|]. done.
Qed.

Lemma repo_loop_spec P cutoff items st :
  let st' := foldl (repo_step P (py.Naive cutoff)) st items in
  s_total_files st' = s_total_files st + length items ∧
  s_total_size st' = (s_total_size st + sum_sizes items)%Z ∧
  ∃ found, s_candidates st' = s_candidates st ++ found ∧
    Forall2 (reports_file P) found
      (filter (λ kv, repo_selected P cutoff kv.2 = true) items).
Proof.
  revert st. induction items as [|[k info] items IH]; intros st; cbn zeta.
  - cbn. split; [lia|]. split; [lia|]. exists []. rewrite app_nil_r. by split.
  - cbn [foldl].
    specialize (IH (repo_step P (py.Naive cutoff) st (k, info))). cbn zeta in IH.
    destruct IH as (Hn & Hs & found & Hc & Hf).
    destruct (repo_step_spec P cutoff st k info) as (Hn1 & Hs1 & Hc1).
    rewrite Hn, Hs, Hc, Hn1, Hs1. clear Hn Hs Hc Hn1 Hs1.
    change (sum_sizes ((k, info) :: items))
      with (default 0 (fi_size info) + sum_sizes items)%Z.
    split; [cbn; lia|]. split; [lia|].
    rewrite filter_cons. cbn [snd].
    destruct (repo_selected P cutoff info).
    + destruct Hc1 as (c & -> & Hr). exists (c :: found).
      rewrite <- app_assoc. split; [done|]. rewrite decide_True by done. by constructor.
    + rewrite Hc1. exists found. split; [done|]. by rewrite decide_False.
Qed.

(** What [analyze_repo_files_for_cleanup] returns on a stored table. *)
Lemma analyze_repo_spec P t fs repo_content_path T files_data :
  stored_files P fs repo_content_path = Some files_data →
  let cutoff := (clock P t - py.timedelta_days T)%Z in
  let '((found, n, total), _) :=
    analyze_repo_files_for_cleanup P t fs repo_content_path T in
  n = size files_data ∧ total = table_total_size files_data ∧
  Forall2 (reports_file P) found
    (filter (λ kv, repo_selected P cutoff kv.2 = true) (map_to_list files_data)).
Proof.
  unfold stored_files, analyze_repo_files_for_cleanup. intros Hst.
  destruct (fs_read fs (path_join repo_content_path "files_data.json")) as [txt|];
    [|done]. cbn in Hst. rewrite Hst. cbn.
  match goal with |- context [foldl ?f ?st (map_to_list files_data)] =>
    destruct (repo_loop_spec P (clock P t - py.timedelta_days T)
                (map_to_list files_data) st) as (Hn & Hs & found & Hc & Hf)
  end.
  cbn in *. rewrite Hn, Hs, Hc. rewrite length_map_to_list.
  split; [done|]. split; [unfold table_total_size; lia|done].
Qed.

End candidates.

Section feed_candidates.
Import cleanup_content.

Lemma repo_candidate_paths P t fs repo_content_path T files_data k :
  stored_files P fs repo_content_path = Some files_data →
  let found := (analyze_repo_files_for_cleanup P t fs repo_content_path T).1.1.1 in
  k ∈ rc_path <$> found ↔
  ∃ info, files_data !! k = Some info ∧
          repo_selected P (clock P t - py.timedelta_days T) info = true.
Proof.
  intros Hst. cbn zeta.
  pose proof (analyze_repo_spec P t fs repo_content_path T files_data Hst) as H.
  cbn zeta in H.
  destruct (analyze_repo_files_for_cleanup P t fs repo_content_path T)
    as [[[found n] total] t']. cbn. destruct H as (_ & _ & Hf).
  rewrite list_elem_of_fmap. split.
  - intros (c & -> & Hc). apply list_elem_of_lookup in Hc as [j Hj].
    destruct (Forall2_lookup_l _ _ _ _ _ Hf Hj) as ([k' info'] & Hin & Hr').
    apply list_elem_of_lookup_2, list_elem_of_filter in Hin as [Hsel Hin].
    apply elem_of_map_to_list in Hin. destruct Hr' as (-> & _). by exists info'.
  - intros (info & Hk & Hsel).
    assert (Hin : (k, info) ∈ filter (λ kv, repo_selected P
              (clock P t - py.timedelta_days T) kv.2 = true) (map_to_list files_data)).
    { apply list_elem_of_filter. split; [done|]. by apply elem_of_map_to_list. }
    apply list_elem_of_lookup in Hin as [j Hj].
    destruct (Forall2_lookup_r _ _ _ _ _ Hf Hj) as (c & Hc & Hr).
    exists c. destruct Hr as (-> & _). split; [done|]. by apply list_elem_of_lookup_2 in Hc.
Qed.






End feed_candidates.

(** ** The age threshold *)

Section threshold.
Import cleanup_content.



(** The sample store at a threshold of 90 days: the file and the entry
    that are exactly 90 days old are kept; the file that is 90 days and one
    hour old is a candidate and is reported with [days_old = 90]. *)
Example threshold_on_sample_store :
  let P := sample_platform sample_files sample_entries in
  (analyze_repo_files_for_cleanup P 0 sample_store "content/repo-content" 90).1.1.1
    = [ {| rc_path := "old.md"; rc_size := 10;
           rc_added_date := "2026-08-04T12:00:00"; rc_days_old := Some 91%Z |};
        {| rc_path := "odd.md"; rc_size := 10;
           rc_added_date := "unknown"; rc_days_old := None |};
        {| rc_path := "hour.md"; rc_size := 10;
           rc_added_date := "2026-08-05T11:00:00"; rc_days_old := Some 90%Z |} ] ∧
  analyze_rss_entries_for_cleanup P 0 sample_store "content/rss-content" 90
    = py.Ok (([ {| xc_id := "old"; xc_title := "title";
                   xc_published := "2026-08-04T12:00:00Z"; xc_detected_date := "";
                   xc_days_old := 91 |} ], 3), 2).
Proof. by vm_compute. Qed.
End threshold.

(** ** Timestamps that do not parse *)

Section unparseable.
Import cleanup_content.



End unparseable.

(** ** Snapshots written by the repository monitor *)

Section monitor_snapshots.
Import monitor_repo_directory cleanup_content.

Lemma download_file_metadata_no_added_date P fetch t info t' :
  download_file_metadata P fetch t = (Some info, t') →
  fi_added_date info = None ∧ is_Some (fi_last_processed info).
Proof.
  unfold download_file_metadata, datetime_now.
  destruct fetch as [file_content|]; [|done].
  case_decide; [|done]. destruct (cf_decoded file_content); [|done].
  intros [= <- _]. cbn. eauto.
Qed.

Lemma handle_file_no_added_date P ls item fetch relative_path w :
  monitor_written (w_files w) →
  monitor_written (w_files (handle_file P ls item fetch relative_path w).1).
Proof.
  intros Hw. unfold handle_file.
  destruct (should_process_file (path_suffix_lower P) (cf_path item)); [|done].
  destruct (download_file_metadata P fetch (w_tick w)) as [[info|] t'] eqn:Hd; [|done].
  assert (Hins : monitor_written (<[relative_path := info]> (w_files w))).
  { intros k info' Hk. destruct (decide (relative_path = k)) as [->|Hne].
    - rewrite lookup_insert_eq in Hk. injection Hk as <-.
      by eapply download_file_metadata_no_added_date.
    - rewrite lookup_insert_ne in Hk by done. by eapply Hw. }
  destruct ls as [dir|]; [|done].
  destruct (py.truthy (download_file_content_for_commit fetch)); [|done].
  by destruct (save_file_locally (w_fs w) dir relative_path
                 (default "" (download_file_content_for_commit fetch))).
Qed.

Lemma process_item_dir P ls current_path item fetch subcontents w :
  cf_type item ≠ "file" → cf_type item = "dir" →
  process_item P ls current_path (Node item fetch (Some subcontents)) w =
  ((process_contents P ls
      (if decide (current_path = "") then cf_name item
       else (current_path +:+ "/" +:+ cf_name item)%string) subcontents w).1, false).
Proof.
  intros Hf Hd. cbn [process_item]. rewrite decide_False, decide_True by done.
  f_equal. f_equal.
  generalize (if decide (current_path = "") then cf_name item
              else (current_path +:+ "/" +:+ cf_name item)%string).
  intros rel. revert w. induction subcontents as [|n rest IH]; intros w; [done|].
  cbn [process_contents]. destruct (process_item P ls rel n w) as [w1 [|]]; [done|].
  apply IH.
Qed.

Lemma process_item_no_added_date P ls n :
  ∀ current_path w, monitor_written (w_files w) →
    monitor_written (w_files (process_item P ls current_path n w).1).
Proof.
  induction n as [item fetch|item fetch items IH] using node_listing_ind;
    intros current_path w Hw.
  - cbn [process_item]. case_decide; [by apply handle_file_no_added_date|].
    by case_decide.
  - destruct (decide (cf_type item = "file")) as [Hf|Hf].
    + cbn [process_item]. rewrite decide_True by done.
      by apply handle_file_no_added_date.
    + destruct (decide (cf_type item = "dir")) as [Hd|Hd].
      * rewrite process_item_dir by done. cbn [fst].
        generalize (if decide (current_path = "") then cf_name item
                    else (current_path +:+ "/" +:+ cf_name item)%string).
        intros rel. revert w Hw. induction IH as [|n rest Hn _ IHrest]; intros w Hw; [done|].
        cbn [process_contents].
        specialize (Hn rel w Hw).
        destruct (process_item P ls rel n w) as [w1 [|]]; [done|].
        by apply IHrest.
      * cbn [process_item]. by rewrite !decide_False.
Qed.

Lemma process_contents_no_added_date P ls current_path items w :
  monitor_written (w_files w) →
  monitor_written (w_files (process_contents P ls current_path items w).1).
Proof.
  revert w. induction items as [|n rest IH]; intros w Hw; [done|].
  cbn [process_contents].
  pose proof (process_item_no_added_date P ls n current_path w Hw) as Hn.
  destruct (process_item P ls current_path n w) as [w1 [|]]; [done|].
  by apply IH.
Qed.

Lemma get_directory_contents_no_added_date P ls root fs t :
  monitor_written (get_directory_contents P ls root fs t).1.1.
Proof.
  assert (He : monitor_written ∅) by (intros k info Hk; by rewrite lookup_empty in Hk).
  unfold get_directory_contents. destruct root as [|items|contents fetch]; [done| |].
  - pose proof (process_contents_no_added_date P ls "" items
                  {| w_files := ∅; w_fs := fs; w_tick := t |} He) as H.
    destruct (process_contents P ls "" items _) as [w [|]]; done.
  - pose proof (handle_file_no_added_date P ls contents fetch (cf_name contents)
                  {| w_files := ∅; w_fs := fs; w_tick := t |} He) as H.
    destruct (handle_file P ls contents fetch (cf_name contents) _) as [w [|]]; done.
Qed.

Lemma repo_selected_no_added_date P cutoff info :
  fi_added_date info = None → repo_selected P cutoff info = false.
Proof. unfold repo_selected, added_date_of. by intros ->. Qed.

(** C10: in the repository cleanup analysis an item without an
    [added_date] field is never a candidate, whatever the threshold and the
    clock.  Every item of a table built by [get_directory_contents] has a
    [last_processed] field and no [added_date] field, so the analysis of a
    stored table that the monitor wrote finds no candidate. *)
Theorem monitor_snapshots_have_no_candidates
    (P : Platform) (t : nat) (fs : FS) (repo_content_path : string) (T : Z)
    (P0 : Platform) (local_storage_path : option string) (root : root_contents)
    (fs0 : FS) (t_scan : nat) :
  let written := (get_directory_contents P0 local_storage_path root fs0 t_scan).1.1 in
  let found := (analyze_repo_files_for_cleanup P t fs repo_content_path T).1.1.1 in
  (∀ files_data k info,
     stored_files P fs repo_content_path = Some files_data →
     files_data !! k = Some info →
     fi_added_date info = None →
     k ∉ rc_path <$> found) ∧
  monitor_written written ∧
  (stored_files P fs repo_content_path = Some written → found = []).
Proof.
  cbn zeta.
  pose proof (get_directory_contents_no_added_date P0 local_storage_path root fs0 t_scan)
    as Hinv.
  split; [|split; [done|]].
  - intros files_data k info Hfiles Hk Hnone.
    rewrite (repo_candidate_paths P t fs repo_content_path T files_data k Hfiles).
    intros (info' & Hk' & Hsel). assert (info' = info) as -> by congruence.
    by rewrite repo_selected_no_added_date in Hsel.
  - intros Hwritten.
    pose proof (λ k', repo_candidate_paths P t fs repo_content_path T _ k' Hwritten)
      as Hpaths. cbn zeta in Hpaths.
    destruct ((analyze_repo_files_for_cleanup P t fs repo_content_path T).1.1.1)
      as [|c found]; [done|]. exfalso.
    destruct (Hpaths (rc_path c)) as [Hin _].
    destruct Hin as (info' & Hk' & Hsel).
    { rewrite list_elem_of_fmap. exists c. split; [done|by left]. }
    destruct (Hinv _ _ Hk') as [Hn _].
    by rewrite repo_selected_no_added_date in Hsel.
Qed.
End monitor_snapshots.

Section monitor_snapshots_sample.
Import monitor_repo_directory cleanup_content.

(** The traversal of [sample_root]: the table and the content files. *)
Example traversal_of_sample_root :
  sample_written !! "README.md"
    = Some {| fi_sha := Some "sha-README.md"; fi_size := Some 5%Z;
              fi_path := Some "docs/README.md"; fi_content_hash := Some "hello";
              fi_download_url := Some "https://host/docs/README.md";
              fi_last_processed := Some "2026-11-03T12:00:00";
              fi_added_date := None |} ∧
  dom sample_written = ({[ "README.md"; "guide/intro.md" ]} : gset string) ∧
  fs_read (get_directory_contents (sample_platform ∅ []) (Some "content/repo-content")
             sample_root empty_fs 0).1.2
    "content/repo-content/files/guide/intro.md" = Some "welcome".
Proof. by vm_compute. Qed.

(** C10 on the table the monitor builds for [sample_root], stored and
    analysed with a threshold of 0 days. *)
Lemma monitor_snapshots_have_no_candidates_witness :
  let P := sample_platform sample_written [] in
  let found :=
    (analyze_repo_files_for_cleanup P 0 sample_store "content/repo-content" 0).1.1.1 in
  ("README.md" ∉ rc_path <$> found) ∧
  monitor_written sample_written ∧
  found = [].
Proof.
  cbn zeta.
  destruct (monitor_snapshots_have_no_candidates
              (sample_platform sample_written []) 0 sample_store "content/repo-content" 0
              (sample_platform ∅ []) (Some "content/repo-content") sample_root empty_fs 0)
    as (Hitem & Hwritten & Hnone).
  split; [|split].
  - apply (Hitem sample_written "README.md"
             {| fi_sha := Some "sha-README.md"; fi_size := Some 5%Z;
                fi_path := Some "docs/README.md"; fi_content_hash := Some "hello";
                fi_download_url := Some "https://host/docs/README.md";
                fi_last_processed := Some "2026-11-03T12:00:00";
                fi_added_date := None |}).
    + reflexivity.
    + vm_compute. reflexivity.
    + reflexivity.
  - exact Hwritten.
  - apply Hnone. reflexivity.
Defined.
End monitor_snapshots_sample.

(** ** The destructive sweep *)

Section destructive_sweep.
Import cleanup_content.

Lemma string_app_inj (s a b : string) : s +:+ a = s +:+ b → a = b.
Proof.
  induction s as [|c s IH]; [done|]. intros H.
  change (String c (s +:+ a) = String c (s +:+ b)) in H.
  injection H as H. by apply IH.
Qed.

Lemma string_app_assoc (a b c : string) : (a +:+ b) +:+ c = a +:+ (b +:+ c).
Proof.
  induction a as [|x a IH]; [done|].
  change (String x ((a +:+ b) +:+ c) = String x (a +:+ (b +:+ c))). by rewrite IH.
Qed.


Lemma content_path_not_snapshot repo a : content_path repo a ≠ snapshot_path repo.
Proof.
  unfold content_path, snapshot_path, path_join. rewrite !string_app_assoc.
  intros H%string_app_inj.
  change (String "/" (String "f" (String "i" (String "l" (String "e" (String "s"
            (String "/" a))))))
          = "/files_data.json") in H.
  discriminate H.
Qed.

Lemma sweep_step_spec fs0 repo gone st c :
  sweep_inv fs0 gone (sw_fs st) →
  let p := content_path repo (rc_path c) in
  let st' := sweep_step repo false st c in
  sw_files_data st' = delete (rc_path c) (sw_files_data st) ∧
  if removable fs0 repo c && bool_decide (p ∉ gone) then
    sw_cleaned_files st' = sw_cleaned_files st ++ [rc_path c] ∧
    sw_total_size_freed st' = (sw_total_size_freed st + rc_size c)%Z ∧
    sweep_inv fs0 ({[p]} ∪ gone) (sw_fs st')
  else
    sw_cleaned_files st' = sw_cleaned_files st ∧
    sw_total_size_freed st' = sw_total_size_freed st ∧
    sw_fs st' = sw_fs st.
Proof.
  intros [Hl Hc]. cbn zeta. unfold sweep_step, removable. cbn [negb].
  fold (content_path repo (rc_path c)).
  set (p := content_path repo (rc_path c)).
  unfold fs_exists, _delete_file, fs_unlink. rewrite Hl.
  pose proof (Hc p) as Hp.
  assert (Hins : ∀ fs', locked fs' = locked fs0 →
            contents fs' = delete p (contents (sw_fs st)) →
            sweep_inv fs0 ({[p]} ∪ gone) fs').
  { intros fs' Hl' Hc'. split; [done|]. intros q. rewrite Hc'.
    destruct (decide (q = p)) as [->|Hq].
    - rewrite lookup_delete_eq. rewrite decide_True; [done|].
      apply elem_of_union. left. by apply elem_of_singleton.
    - rewrite lookup_delete_ne by done. rewrite Hc.
      destruct (decide (q ∈ gone)) as [Hqg|Hqg].
      + rewrite decide_True; [done|]. apply elem_of_union. by right.
      + rewrite decide_False; [done|].
        intros [Hq'%elem_of_singleton|Hq']%elem_of_union; done. }
  destruct (decide (p ∈ gone)) as [Hg|Hg].
  - rewrite !Hp. rewrite (bool_decide_eq_false_2 (p ∉ gone)) by tauto.
    rewrite andb_false_r. rewrite bool_decide_eq_false_2 by (by intros [??]).
    done.
  - rewrite (bool_decide_eq_true_2 (p ∉ gone)) by done. rewrite andb_true_r.
    rewrite !Hp.
    destruct (contents fs0 !! p) as [txt|] eqn:Hfs.
    + rewrite bool_decide_eq_true_2 by eauto.
      destruct (decide (p ∈ locked fs0)) as [Hlk|Hlk].
      * rewrite (bool_decide_eq_false_2 (p ∉ locked fs0)) by tauto. done.
      * rewrite (bool_decide_eq_true_2 (p ∉ locked fs0)) by done.
        cbn. split; [done|]. split; [done|]. split; [done|].
        by apply Hins.
    + rewrite bool_decide_eq_false_2 by (by intros [??]). done.
Qed.

Lemma sweep_loop_spec fs0 repo candidates : ∀ gone st,
  sweep_inv fs0 gone (sw_fs st) →
  let st' := foldl (sweep_step repo false) st candidates in
  let removed := removed_from fs0 repo gone candidates in
  sw_files_data st' = without_candidates (sw_files_data st) candidates ∧
  sw_cleaned_files st' = sw_cleaned_files st ++ (rc_path <$> removed) ∧
  sw_total_size_freed st' = (sw_total_size_freed st + sum_Z (rc_size <$> removed))%Z ∧
  sweep_inv fs0 (list_to_set (content_path repo <$> (rc_path <$> removed)) ∪ gone)
    (sw_fs st').
Proof.
  induction candidates as [|c candidates IH]; intros gone st Hinv; cbn zeta.
  - cbn. rewrite app_nil_r, Z.add_0_r, union_empty_l_L. done.
  - cbn [foldl removed_from without_candidates].
    destruct (sweep_step_spec fs0 repo gone st c Hinv) as (Hd & Hstep).
    cbn zeta in Hstep.
    destruct (removable fs0 repo c &&
              bool_decide (content_path repo (rc_path c) ∉ gone)).
    + destruct Hstep as (Hcl & Hfr & Hinv').
      destruct (IH _ _ Hinv') as (H1 & H2 & H3 & H4). cbn zeta in *.
      rewrite H1, H2, H3, Hd, Hcl, Hfr. rewrite !fmap_cons.
      change (sum_Z (rc_size c :: ?l)) with (rc_size c + sum_Z l)%Z.
      rewrite <- app_assoc. split; [done|]. split; [done|]. split; [lia|].
      rewrite list_to_set_cons.
      match goal with
      | H : sweep_inv _ ?X _ |- sweep_inv _ ?Y _ =>
          assert (Y = X) as ->; [|exact H]
      end.
      apply set_eq. intros q. rewrite !elem_of_union. tauto.
    + destruct Hstep as (Hcl & Hfr & Hfs).
      assert (Hinv' : sweep_inv fs0 gone (sw_fs (sweep_step repo false st c)))
        by (by rewrite Hfs).
      destruct (IH _ _ Hinv') as (H1 & H2 & H3 & H4). cbn zeta in *.
      by rewrite H1, H2, H3, Hd, Hcl, Hfr.
Qed.



Lemma sweep_inv_start fs : sweep_inv fs ∅ fs.
Proof. split; [done|]. intros p. by rewrite decide_False by (by intros ?%elem_of_empty). Qed.

(** The result of [cleanup_repo_files] in destructive mode, before the
    snapshot is rewritten. *)
Lemma destructive_sweep_loop P fs repo candidates :
  let res := cleanup_repo_files P fs repo candidates false in
  let removed := removed_from fs repo ∅ candidates in
  let loaded := default ∅ (stored_files P fs repo) in
  ∃ fs1,
    sweep_inv fs (list_to_set (content_path repo <$> (rc_path <$> removed))) fs1 ∧
    res.2.1 = rc_path <$> removed ∧
    res.2.2 = sum_Z (rc_size <$> removed) ∧
    res.1 = if bool_decide (rc_path <$> removed ≠ [])
            then _update_files_data P fs1 (snapshot_path repo)
                   (without_candidates loaded candidates)
            else fs1.
Proof.
  cbn zeta. unfold cleanup_repo_files. cbn [negb andb fst snd].
  match goal with |- context [foldl _ ?st candidates] =>
    destruct (sweep_loop_spec fs repo candidates ∅ st (sweep_inv_start fs))
      as (H1 & H2 & H3 & H4); set (st0 := st) in *
  end.
  cbn zeta in *. cbn [sw_fs sw_files_data sw_cleaned_files sw_total_size_freed] in *.
  exists (sw_fs (foldl (sweep_step repo false) st0 candidates)).
  rewrite union_empty_r_L in H4. rewrite H1, H2, H3. cbn.
  split; [done|]. split; [done|]. split; [lia|].
  assert (Hload : match fs_read fs (path_join repo "files_data.json") with
                  | Some txt => default ∅ (json_load_files P txt)
                  | None => ∅
                  end = default ∅ (stored_files P fs repo)).
  { unfold stored_files. by destruct (fs_read fs _). }
  by rewrite Hload.
Qed.



Lemma update_files_data_spec P fs1 p files_data :
  let fs' := _update_files_data P fs1 p files_data in
  locked fs' = locked fs1 ∧
  (∀ q, q ≠ p → contents fs' !! q = contents fs1 !! q) ∧
  contents fs' !! p = if decide (p ∈ locked fs1) then contents fs1 !! p
                      else Some (json_dump_files P files_data).
Proof.
  cbn zeta. unfold _update_files_data, fs_write.
  destruct (decide (p ∈ locked fs1)); cbn; [done|].
  split; [done|]. split; [|by rewrite lookup_insert_eq].
  intros q Hq. by rewrite lookup_insert_ne.
Qed.

Lemma without_candidates_lookup files_data candidates k :
  without_candidates files_data candidates !! k =
  if decide (k ∈ rc_path <$> candidates) then None else files_data !! k.
Proof.
  unfold without_candidates. revert files_data.
  induction candidates as [|c candidates IH]; intros files_data.
  - cbn. by rewrite decide_False by (by intros ?%elem_of_nil).
  - cbn [foldl]. rewrite IH, fmap_cons.
    destruct (decide (k ∈ rc_path <$> candidates)) as [Hin|Hin].
    + rewrite decide_True; [done|by right].
    + destruct (decide (k = rc_path c)) as [->|Hne].
      * rewrite lookup_delete_eq. rewrite decide_True; [done|by left].
      * rewrite lookup_delete_ne by done.
        rewrite decide_False; [done|]. by intros [?|?]%elem_of_cons.
Qed.

(** The file system after the destructive sweep, path by path. *)
Lemma cleanup_repo_files_contents P fs repo candidates :
  let res := cleanup_repo_files P fs repo candidates false in
  let kept := without_candidates (default ∅ (stored_files P fs repo)) candidates in
  locked res.1 = locked fs ∧
  ∀ p, contents res.1 !! p =
       if decide (p = snapshot_path repo ∧ res.2.1 ≠ [] ∧ p ∉ locked fs)
       then Some (json_dump_files P kept)
       else if decide (p ∈ content_path repo <$> res.2.1) then None
       else contents fs !! p.
Proof.
  cbn zeta.
  destruct (destructive_sweep_loop P fs repo candidates)
    as (fs1 & [Hl Hc] & Hclean & _ & Hfs).
  cbn zeta in *. rewrite Hclean, Hfs. clear Hclean Hfs.
  set (removed := removed_from fs repo ∅ candidates) in *.
  set (kept := without_candidates (default ∅ (stored_files P fs repo)) candidates).
  assert (Hfs1 : ∀ p, contents fs1 !! p =
            if decide (p ∈ content_path repo <$> (rc_path <$> removed)) then None
            else contents fs !! p).
  { intros p. rewrite Hc.
    destruct (decide (p ∈ content_path repo <$> (rc_path <$> removed))) as [Hin|Hin].
    - rewrite decide_True; [done|]. by apply elem_of_list_to_set.
    - rewrite decide_False; [done|]. by intros ?%elem_of_list_to_set. }
  assert (Hsnap : snapshot_path repo ∉ content_path repo <$> (rc_path <$> removed)).
  { intros (k & Hk & _)%list_elem_of_fmap. symmetry in Hk.
    by apply content_path_not_snapshot in Hk. }
  case_bool_decide as Hne.
  - destruct (update_files_data_spec P fs1 (snapshot_path repo) kept) as (Hl' & Hc' & Hs').
    split; [congruence|]. intros p.
    destruct (decide (p = snapshot_path repo)) as [->|Hp].
    + rewrite Hs', Hl. destruct (decide (snapshot_path repo ∈ locked fs)) as [Hlk|Hlk].
      * rewrite decide_False by tauto. rewrite Hfs1. by rewrite decide_False.
      * by rewrite decide_True.
    + rewrite decide_False by tauto. rewrite Hc' by done. apply Hfs1.
  - split; [done|]. intros p. rewrite decide_False by tauto. apply Hfs1.
Qed.




(** The snapshot file is rewritten only when at least one file was removed;
    it then holds the loaded table without the entries of all candidates,
    also of those whose file was missing or could not be removed.  When no
    file was removed, the destructive sweep leaves the file system as it
    found it. *)
Theorem destructive_sweep_snapshot
    (P : Platform) (fs : FS) (repo_content_path : string)
    (candidates : list RepoCandidate) :
  let res := cleanup_repo_files P fs repo_content_path candidates false in
  let loaded := default ∅ (stored_files P fs repo_content_path) in
  let kept := without_candidates loaded candidates in
  (res.2.1 = [] → res.1 = fs) ∧
  (res.2.1 ≠ [] → snapshot_path repo_content_path ∉ locked fs →
   contents res.1 !! snapshot_path repo_content_path = Some (json_dump_files P kept)) ∧
  (res.2.1 ≠ [] → snapshot_path repo_content_path ∈ locked fs →
   contents res.1 !! snapshot_path repo_content_path
     = contents fs !! snapshot_path repo_content_path) ∧
  (∀ k, kept !! k = if decide (k ∈ rc_path <$> candidates) then None else loaded !! k).
Proof.
  cbn zeta.
  destruct (cleanup_repo_files_contents P fs repo_content_path candidates) as [Hl Hc].
  cbn zeta in *.
  split; [|split; [|split]].
  - intros Hnil.
    destruct (cleanup_repo_files P fs repo_content_path candidates false).1
      as [c1 l1] eqn:Hres.
    destruct fs as [c0 l0]. cbn in *. subst l1. f_equal. apply map_eq. intros p.
    rewrite Hc, Hnil. rewrite decide_False by tauto.
    rewrite decide_False; [done|]. by intros ?%elem_of_nil.
  - intros Hne Hlk. rewrite Hc. by rewrite decide_True.
  - intros Hne Hlk. rewrite Hc. rewrite decide_False by tauto.
    rewrite decide_False; [done|].
    intros (k & Hk & _)%list_elem_of_fmap. symmetry in Hk.
    by apply content_path_not_snapshot in Hk.
  - apply without_candidates_lookup.
Qed.
End destructive_sweep.

Section destructive_feed_sweep_section.
Import cleanup_content.

(** What the destructive sweep of the feed entries writes and returns. *)
Lemma cleanup_rss_entries_write P fs rss candidates :
  let ids : gset string := list_to_set (xc_id <$> candidates) in
  let loaded := default [] (stored_entries P fs rss) in
  cleanup_rss_entries P fs rss candidates false =
  (default fs (fs_write fs (entries_path rss)
                 (json_dump_entries P (surviving ids loaded))),
   elements ids).
Proof.
  cbn zeta. unfold cleanup_rss_entries. cbn [negb].
  fold (entries_path rss).
  assert (Hload : match fs_read fs (entries_path rss) with
                  | Some txt => default [] (json_load_entries P txt)
                  | None => []
                  end = default [] (stored_entries P fs rss)).
  { unfold stored_entries. fold (entries_path rss). by destruct (fs_read fs _). }
  rewrite Hload. unfold surviving.
  by destruct (fs_write fs (entries_path rss) _).
Qed.



(** The destructive sweep of the feed entries always rewrites the stored
    list (it creates the file when it is missing): the new list holds, in
    order, the stored entries whose id is not the id of a candidate, so an
    entry that shares its id with a candidate is dropped with it.  The
    sweep reports each candidate id once, stored or not, and touches no
    other file; when the file cannot be written nothing changes. *)
Theorem destructive_feed_sweep
    (P : Platform) (fs : FS) (rss_content_path : string)
    (candidates : list RssCandidate) :
  let res := cleanup_rss_entries P fs rss_content_path candidates false in
  let ids : gset string := list_to_set (xc_id <$> candidates) in
  let loaded := default [] (stored_entries P fs rss_content_path) in
  NoDup res.2 ∧
  (∀ i, i ∈ res.2 ↔ i ∈ xc_id <$> candidates) ∧
  locked res.1 = locked fs ∧
  (∀ p, p ≠ entries_path rss_content_path → contents res.1 !! p = contents fs !! p) ∧
  (entries_path rss_content_path ∉ locked fs →
   contents res.1 !! entries_path rss_content_path
     = Some (json_dump_entries P (surviving ids loaded))) ∧
  (entries_path rss_content_path ∈ locked fs → res.1 = fs).
Proof.
  cbn zeta. rewrite cleanup_rss_entries_write. cbn [fst snd].
  split; [apply NoDup_elements|].
  split; [intros i; by rewrite elem_of_elements, elem_of_list_to_set|].
  unfold fs_write.
  destruct (decide (entries_path rss_content_path ∈ locked fs)) as [Hlk|Hlk]; cbn.
  - repeat split; done.
  - split; [done|]. split; [intros p Hp; by rewrite lookup_insert_ne|].
    split; [intros _; by rewrite lookup_insert_eq|done].
Qed.
End destructive_feed_sweep_section.

Section destructive_main.
Import cleanup_content.





End destructive_main.

Section destructive_main_feed.
Import cleanup_content.


End destructive_main_feed.

Section cleanup_abort.
Import cleanup_content.




End cleanup_abort.

(** ** The feed reconciler: stamps, ages and the oldest entries *)

Section feed_stamps.
Import monitor_rss_feed.

Lemma fresh_set_detected_date old e stamp :
  fresh old (set_detected_date e stamp) = fresh old e.
Proof. done. Qed.

Lemma feed_loop_stamps P old entries : ∀ st,
  let st' := foldl (compare_step P (old_entries_dict old)) st entries in
  ∃ seen,
    l_seen st' = l_seen st ++ seen ∧
    length seen = length entries ∧
    (∀ i e, entries !! i = Some e →
       seen !! i = Some
         (if fresh old e
          then set_detected_date e
                 (isoformat P (clock P (l_tick st +
                    length (filter (λ x, fresh old x = true) (take i entries)))))
          else e)) ∧
    l_new_entries st' = l_new_entries st ++ filter (λ s, fresh old s = true) seen.
Proof.
  induction entries as [|e entries IH]; intros st; cbn zeta.
  - exists []. cbn. rewrite !app_nil_r. repeat split; done.
  - cbn [foldl]. specialize (IH (compare_step P (old_entries_dict old) st e)).
    cbn zeta in IH. destruct IH as (seen & Hs & Hlen & Hidx & Hnew).
    rewrite compare_step_fresh in *.
    destruct (fresh old e) eqn:Hfresh; cbn [l_seen l_tick l_new_entries] in *.
    + eexists (_ :: seen). rewrite Hs, Hnew, <- !app_assoc. cbn [app].
      split; [done|]. split; [cbn; by rewrite Hlen|]. split.
      * intros [|i] e' He'; cbn in He'.
        -- injection He' as <-. cbn. rewrite Hfresh. by rewrite Nat.add_0_r.
        -- rewrite lookup_cons. rewrite (Hidx i e' He'). cbn [take].
           rewrite filter_cons, decide_True by done. cbn [length].
           by rewrite Nat.add_succ_r.
      * rewrite filter_cons, decide_True; [done|].
        by rewrite fresh_set_detected_date.
    + exists (e :: seen). rewrite Hs, Hnew, <- !app_assoc. cbn [app].
      split; [done|]. split; [cbn; by rewrite Hlen|]. split.
      * intros [|i] e' He'; cbn in He'.
        -- injection He' as <-. cbn. by rewrite Hfresh.
        -- rewrite lookup_cons. rewrite (Hidx i e' He'). cbn [take].
           rewrite filter_cons, decide_False; [done|]. by rewrite Hfresh.
      * rewrite filter_cons, decide_False; [done|]. by rewrite Hfresh.
Qed.

(** [compare_feed_entries] stamps the new entries in place: after the call
    the list of current entries holds, at each position, the entry it held
    before, with a detection stamp when the entry is new.  The stamps are
    successive clock readings, in feed order; the reported new entries are
    the stamped entries of that list. *)
Theorem new_entries_are_stamped_in_place
    (P : Platform) (t : nat) (old new : list entry) :
  let '(c, seen, t') := compare_feed_entries P t old new in
  length seen = length new ∧
  (∀ i e, new !! i = Some e →
     seen !! i = Some
       (if fresh old e
        then set_detected_date e
               (isoformat P (clock P (S t +
                  length (filter (λ x, fresh old x = true) (take i new)))))
        else e)) ∧
  new_entries c = filter (λ s, fresh old s = true) seen ∧
  total_new c = length (new_entries c) ∧
  t' = S t + total_new c.
Proof.
  pose proof (compare_feed_entries_spec P t old new) as Hspec.
  unfold compare_feed_entries, analyze_entries_for_cleanup, datetime_now in *.
  cbn zeta in *.
  match goal with |- context [foldl ?f ?st new] =>
    destruct (feed_loop_stamps P old new st) as (seen & Hs & Hlen & Hidx & Hnew)
  end.
  cbn in *. destruct Hspec as (_ & Htot & _ & Ht).
  rewrite Hs, Hnew. rewrite Hnew in Htot. done.
Qed.
End feed_stamps.

Section feed_ages.
Import monitor_rss_feed.

Lemma age_loop_counts (ages : list Z) : ∀ d,
  let d' := foldl age_step d ages in
  last_week d' = last_week d + length (filter (λ a, a ≤ 7)%Z ages) ∧
  last_month d' = last_month d + length (filter (λ a, 7 < a ≤ 30)%Z ages) ∧
  last_quarter d' = last_quarter d + length (filter (λ a, 30 < a ≤ 90)%Z ages) ∧
  older d' = older d + length (filter (λ a, 90 < a)%Z ages).
Proof.
  induction ages as [|a ages IH]; intros d; cbn zeta.
  - cbn. lia.
  - cbn [foldl]. specialize (IH (age_step d a)). cbn zeta in IH.
    destruct IH as (H1 & H2 & H3 & H4). rewrite H1, H2, H3, H4.
    rewrite !filter_cons. unfold age_step.
    repeat case_decide; cbn [last_week last_month last_quarter older length]; lia.
Qed.

Lemma length_filter_fmap {A B : Type} (f : A → B) (Q : B → Prop)
    `{∀ b, Decision (Q b)} (l : list A) :
  length (filter Q (f <$> l)) = length (filter (λ a, Q (f a)) l).
Proof.
  induction l as [|a l IH]; [done|]. cbn [fmap list_fmap].
  rewrite !filter_cons. case_decide; cbn; by rewrite IH.
Qed.

(** The age distribution [analyze_entries_for_cleanup] reports counts every
    current entry in exactly one bucket, by the whole days between its
    publication and the clock reading of the call: up to 7, 8 to 30, 31 to
    90, more than 90.  An entry whose publication date is missing or in
    none of the three formats has age 0 and is counted in [last_week], as
    is an entry dated in the future. *)
Theorem age_distribution_counts
    (P : Platform) (t : nat) (old new : list entry) :
  let info := (analyze_entries_for_cleanup P t old new).1 in
  let d := entry_age_distribution info in
  let age := entry_days_old P (clock P t) in
  last_week d = length (filter (λ e, age e ≤ 7)%Z new) ∧
  last_month d = length (filter (λ e, 7 < age e ≤ 30)%Z new) ∧
  last_quarter d = length (filter (λ e, 30 < age e ≤ 90)%Z new) ∧
  older d = length (filter (λ e, 90 < age e)%Z new) ∧
  last_week d + last_month d + last_quarter d + older d = total_entries info ∧
  (∀ e, first_format P (default "" (e_published e)) date_formats = None → age e = 0%Z) ∧
  (∀ e published,
     first_format P (default "" (e_published e)) date_formats = Some published →
     default "" (e_published e) ≠ "" →
     age e = ((clock P t - published) `div` py.day_us)%Z).
Proof.
  cbn zeta. unfold analyze_entries_for_cleanup, datetime_now.
  cbn [fst entry_age_distribution total_entries].
  match goal with |- context [foldl age_step ?d0 ?ages] =>
    pose proof (age_loop_counts ages d0) as Hc
  end.
  cbn zeta in Hc. destruct Hc as (H1 & H2 & H3 & H4).
  rewrite H1, H2, H3, H4. cbn [last_week last_month last_quarter older].
  rewrite <- !list_fmap_compose.
  rewrite !(length_filter_fmap (ei_days_old ∘ entry_info_of P (clock P t))).
  cbn [compose entry_info_of ei_days_old Nat.add].
  split; [done|]. split; [done|]. split; [done|]. split; [done|]. split.
  - clear. induction new as [|e new IH]; [done|].
    rewrite !filter_cons. cbn [length].
    repeat case_decide; cbn [length]; lia.
  - split.
    + intros e He. unfold entry_days_old. rewrite He. by destruct (py.truthy _).
    + intros e published He Hne. unfold entry_days_old. rewrite He.
      destruct (default "" (e_published e)) as [|c s]; [done|]. done.
Qed.
End feed_ages.

Section feed_oldest.
Import monitor_rss_feed.

Lemma insert_desc_sorted x l :
  StronglySorted older_first l → StronglySorted older_first (insert_desc x l).
Proof.
  induction 1 as [|y l Hl IH Hy]; cbn.
  - repeat constructor.
  - case_decide as Hxy.
    + constructor; [by constructor|]. constructor; [done|].
      rewrite Forall_forall in Hy |- *. intros z Hz. specialize (Hy z Hz).
      unfold older_first in *. lia.
    + constructor; [done|]. rewrite Forall_forall in Hy |- *. intros z Hz.
      rewrite insert_desc_perm in Hz. apply elem_of_cons in Hz as [->|Hz].
      * unfold older_first. lia.
      * by apply Hy.
Qed.

Lemma sort_desc_sorted l : StronglySorted older_first (sort_desc l).
Proof.
  induction l as [|x l IH]; cbn; [constructor|]. by apply insert_desc_sorted.
Qed.

Lemma insert_desc_filter (k : Z) x l :
  filter (λ y, ei_days_old y = k) (insert_desc x l) =
  filter (λ y, ei_days_old y = k) (x :: l).
Proof.
  induction l as [|y l IH]; [done|]. cbn [insert_desc]. case_decide as Hxy; [done|].
  rewrite filter_cons, IH, !filter_cons.
  destruct (decide (ei_days_old y = k)), (decide (ei_days_old x = k)); try done. lia.
Qed.

Lemma sort_desc_filter (k : Z) l :
  filter (λ y, ei_days_old y = k) (sort_desc l) = filter (λ y, ei_days_old y = k) l.
Proof.
  induction l as [|x l IH]; [done|]. cbn [sort_desc foldr].
  fold (sort_desc l). rewrite insert_desc_filter, !filter_cons, IH. done.
Qed.

Lemma filter_take_prefix {A : Type} (Q : A → Prop) `{∀ a, Decision (Q a)} n (l : list A) :
  filter Q (take n l) `prefix_of` filter Q l.
Proof.
  rewrite <- (take_drop n l) at 2. rewrite filter_app. by apply prefix_app_r.
Qed.
(** [oldest_entries] lists the ten oldest current entries (all of them when
    there are fewer), oldest first: no entry left out is older than a
    listed one, and entries of the same age stand in feed order. *)
Theorem oldest_entries_are_the_oldest
    (P : Platform) (t : nat) (old new : list entry) :
  let info := (analyze_entries_for_cleanup P t old new).1 in
  let all := entry_info_of P (clock P t) <$> new in
  let oldest := oldest_entries info in
  length oldest = min 10 (length new) ∧
  StronglySorted older_first oldest ∧
  (∃ rest, oldest ++ rest ≡ₚ all ∧
           ∀ x y, x ∈ oldest → y ∈ rest → older_first x y) ∧
  (∀ k, filter (λ x, ei_days_old x = k) oldest
          `prefix_of` filter (λ x, ei_days_old x = k) all).
Proof.
  cbn zeta. unfold analyze_entries_for_cleanup, datetime_now.
  cbn [fst oldest_entries].
  change (map (entry_info_of P (clock P t)) new)
    with (entry_info_of P (clock P t) <$> new).
  set (all := entry_info_of P (clock P t) <$> new).
  pose proof (sort_desc_sorted all) as Hsorted.
  rewrite <- (take_drop 10 (sort_desc all)) in Hsorted.
  split.
  { rewrite length_take. rewrite (Permutation_length (sort_desc_perm all)).
    unfold all. by rewrite length_fmap. }
  split; [by apply StronglySorted_app_1_l in Hsorted|].
  split.
  - exists (drop 10 (sort_desc all)). split.
    + by rewrite take_drop, sort_desc_perm.
    + intros x y Hx Hy. by apply (StronglySorted_app_1_elem_of _ _ _ x y Hsorted).
  - intros k. rewrite <- (sort_desc_filter k all). apply filter_take_prefix.
Qed.
End feed_oldest.

(** ** The feed monitor run *)

Section feed_monitor_paths.
Import monitor_rss_feed.


Lemma feed_file_not_repo_content dir i name p :
  path_join (feed_dir dir i) name ≠ path_join (path_join dir "repo-content") p.
Proof.
  unfold feed_dir, path_join. rewrite !string_app_assoc.
  intros H%string_app_inj. cbv [append] in H. discriminate H.
Qed.

Lemma fs_write_Some fs p txt fs' :
  fs_write fs p txt = Some fs' →
  (p ∉ locked fs) ∧ locked fs' = locked fs ∧ contents fs' = <[p := txt]> (contents fs).
Proof.
  unfold fs_write. destruct (decide (p ∈ locked fs)); [done|]. by intros [= <-].
Qed.

Lemma process_feed_frame P D strip_markup dir i url feed fs t fs' t' ch :
  process_feed P D strip_markup dir i url feed fs t = py.Ok (fs', t', ch) →
  locked fs' = locked fs ∧
  ∀ p, (∀ name, p ≠ path_join (feed_dir dir i) name) →
       contents fs' !! p = contents fs !! p.
Proof.
  unfold process_feed. destruct feed as [feed|]; [|by intros [= <- <- <-]].
  destruct (extract_feed_entries P strip_markup (feed_entries feed) i) as [|e current];
    [by intros [= <- <- <-]|].
  destruct (compare_feed_entries P t _ (e :: current)) as [[changes seen] t1].
  destruct (fs_write fs _ _) as [fs1|] eqn:H1; [|done].
  destruct (fs_write fs1 _ _) as [fs2|] eqn:H2; [|done].
  unfold datetime_now.
  destruct (fs_write fs2 _ _) as [fs3|] eqn:H3; [|done].
  intros [= <- <- <-].
  apply fs_write_Some in H1 as (_ & Hl1 & Hc1).
  apply fs_write_Some in H2 as (_ & Hl2 & Hc2).
  apply fs_write_Some in H3 as (_ & Hl3 & Hc3).
  split; [congruence|]. intros p Hp.
  rewrite Hc3, lookup_insert_ne by (intros Heq; by apply (Hp "feed_metadata.json")).
  rewrite Hc2, lookup_insert_ne by (intros Heq; by apply (Hp "latest_changes.json")).
  rewrite Hc1, lookup_insert_ne by (intros Heq; by apply (Hp "feed_entries.json")).
  done.
Qed.



End feed_monitor_paths.

Section feed_monitor_rerun.
Import monitor_rss_feed.

Lemma path_join_inj base a b : path_join base a = path_join base b → a = b.
Proof. unfold path_join. intros H%string_app_inj. by apply string_app_inj in H. Qed.

Lemma feed_loop_no_fresh P old entries : ∀ st,
  (∀ e, e ∈ entries → fresh old e = false) →
  foldl (compare_step P (old_entries_dict old)) st entries =
  {| l_new_entries := l_new_entries st; l_total_new := l_total_new st;
     l_seen := l_seen st ++ entries; l_tick := l_tick st |}.
Proof.
  induction entries as [|e entries IH]; intros st Hall.
  - cbn. rewrite app_nil_r. by destruct st.
  - cbn [foldl]. rewrite compare_step_fresh, (Hall e) by (by left).
    rewrite IH by (intros e' He'; apply Hall; by right).
    cbn. by rewrite <- app_assoc.
Qed.

Lemma compare_feed_entries_no_fresh P t old new :
  (∀ e, e ∈ new → fresh old e = false) →
  let '(c, seen, t') := compare_feed_entries P t old new in
  new_entries c = [] ∧ total_new c = 0 ∧ seen = new ∧ t' = S t.
Proof.
  intros Hall. unfold compare_feed_entries, analyze_entries_for_cleanup, datetime_now.
  cbn zeta. rewrite feed_loop_no_fresh by done. done.
Qed.

Lemma seen_ids_are_stored seen current :
  Forall2 (λ s e, s = e ∨ stamped s e) seen current →
  ∀ e, e ∈ current → fresh seen e = false.
Proof.
  intros Hf e He. unfold fresh.
  destruct (py.truthy (e_id e)) eqn:Ht; [|done]. cbn.
  apply bool_decide_eq_false_2. intros Hn. apply Hn.
  apply list_elem_of_lookup in He as [j Hj].
  destruct (Forall2_lookup_r _ _ _ _ _ Hf Hj) as (s & Hs & Hrel).
  assert (Hid : e_id s = e_id e) by (destruct Hrel as [->|Hst]; [done|by apply stamped_id]).
  unfold stored_ids. apply elem_of_list_to_set, list_elem_of_omap.
  exists s. split; [by apply list_elem_of_lookup_2 in Hs|].
  rewrite Hid. by destruct (e_id e).
Qed.

Lemma extract_feed_entries_no_stamp P strip_markup entries i e :
  e ∈ extract_feed_entries P strip_markup entries i → e_detected_date e = None.
Proof.
  unfold extract_feed_entries. intros (fe & -> & _)%list_elem_of_fmap. done.
Qed.

(** Running the feed monitor a second time on the same feed reports no
    change.  The first run stores the current entries, the new ones with
    their detection stamp; when that list reads back as it was written,
    the second run finds every id stored, reports nothing new, and stores
    the current entries again, this time without any detection stamp. *)
Theorem second_feed_run_reports_nothing
    (P : Platform) (D : Dumps) (strip_markup : string → string)
    (local_content_dir : string) (feed_index : nat) (rss_feed_url : string)
    (feed : Feed) (fs : FS) (t : nat) (fs1 : FS) (t1 : nat) (has_changes : bool) :
  let file := path_join (feed_dir local_content_dir feed_index) "feed_entries.json" in
  let current := extract_feed_entries P strip_markup (feed_entries feed) feed_index in
  let stored :=
    (compare_feed_entries P t (load_previous_entries P fs file) current).1.2 in
  process_feed P D strip_markup local_content_dir feed_index rss_feed_url
    (Some feed) fs t = py.Ok (fs1, t1, has_changes) →
  json_load_entries P (json_dump_entries P stored) = Some stored →
  ∃ fs2 t2,
    process_feed P D strip_markup local_content_dir feed_index rss_feed_url
      (Some feed) fs1 t1 = py.Ok (fs2, t2, false) ∧
    (current ≠ [] →
     fs_read fs1 file = Some (json_dump_entries P stored) ∧
     fs_read fs2 file = Some (json_dump_entries P current)) ∧
    (∀ e, e ∈ current → e_detected_date e = None).
Proof.
  cbn zeta. intros Hrun Hcodec.
  set (dir := feed_dir local_content_dir feed_index) in *.

  assert (Hstamp : ∀ e, e ∈ extract_feed_entries P strip_markup (feed_entries feed)
                             feed_index → e_detected_date e = None)
    by (intros e; apply extract_feed_entries_no_stamp).
  unfold process_feed in *. fold dir in Hrun |- *.
  destruct (extract_feed_entries P strip_markup (feed_entries feed) feed_index)
    as [|e0 current] eqn:Hcur.
  { injection Hrun as <- <- <-. exists fs, t. done. }
  pose proof (compare_feed_entries_spec P t
                (load_previous_entries P fs (path_join dir "feed_entries.json"))
                (e0 :: current)) as Hspec.
  destruct (compare_feed_entries P t _ (e0 :: current)) as [[changes seen] t1'].
  destruct Hspec as (_ & _ & Hseen & _). cbn [fst snd] in Hcodec.
  destruct (fs_write fs _ _) as [fsa|] eqn:H1; [|done].
  destruct (fs_write fsa _ _) as [fsb|] eqn:H2; [|done].
  unfold datetime_now in *.
  destruct (fs_write fsb _ _) as [fsc|] eqn:H3; [|done].
  injection Hrun as <- <- <-.
  apply fs_write_Some in H1 as (Hn1 & Hl1 & Hc1).
  apply fs_write_Some in H2 as (Hn2 & Hl2 & Hc2).
  apply fs_write_Some in H3 as (Hn3 & Hl3 & Hc3).
  assert (Hfile : fs_read fsc (path_join dir "feed_entries.json")
                  = Some (json_dump_entries P seen)).
  { unfold fs_read. rewrite Hc3, lookup_insert_ne by (by intros ?%path_join_inj).
    rewrite Hc2, lookup_insert_ne by (by intros ?%path_join_inj).
    by rewrite Hc1, lookup_insert_eq. }
  assert (Hprev : load_previous_entries P fsc (path_join dir "feed_entries.json") = seen).
  { unfold load_previous_entries. by rewrite Hfile, Hcodec. }
  rewrite Hprev.
  pose proof (compare_feed_entries_no_fresh P (S t1') seen (e0 :: current)
                (seen_ids_are_stored seen (e0 :: current) Hseen)) as Hno.
  destruct (compare_feed_entries P (S t1') seen (e0 :: current))
    as [[changes2 seen2] t2'].
  destruct Hno as (_ & Htot & -> & ->). rewrite Htot.
  unfold fs_write.
  rewrite decide_False by congruence. cbn [locked].
  rewrite decide_False by congruence. cbn [locked].
  rewrite decide_False by congruence.
  eexists _, _. split; [reflexivity|]. split; [|done].
  intros _. split; [done|]. unfold fs_read. cbn [contents].
  rewrite lookup_insert_ne by (by intros ?%path_join_inj).
  rewrite lookup_insert_ne by (by intros ?%path_join_inj).
  by rewrite lookup_insert_eq.
Qed.

Lemma second_feed_run_reports_nothing_witness :
  let P := sample_platform ∅ sample_feed_stored in
  let file := path_join (feed_dir "content" 0) "feed_entries.json" in
  let current := extract_feed_entries P id (feed_entries sample_feed) 0 in
  ∃ fs1 t1 has_changes fs2 t2,
    process_feed P sample_dumps id "content" 0 "https://host/feed" (Some sample_feed)
      empty_fs 0 = py.Ok (fs1, t1, has_changes) ∧
    process_feed P sample_dumps id "content" 0 "https://host/feed" (Some sample_feed)
      fs1 t1 = py.Ok (fs2, t2, false) ∧
    (current ≠ [] →
     fs_read fs1 file = Some (json_dump_entries P sample_feed_stored) ∧
     fs_read fs2 file = Some (json_dump_entries P current)) ∧
    (∀ e, e ∈ current → e_detected_date e = None).
Proof.
  cbn zeta.
  destruct (process_feed (sample_platform ∅ sample_feed_stored) sample_dumps id "content" 0
              "https://host/feed" (Some sample_feed) empty_fs 0)
    as [[[fs1 t1] ch]|e] eqn:Hrun; [|vm_compute in Hrun; discriminate Hrun].
  destruct (second_feed_run_reports_nothing
              (sample_platform ∅ sample_feed_stored) sample_dumps id "content" 0
              "https://host/feed" sample_feed empty_fs 0 fs1 t1 ch Hrun)
    as (fs2 & t2 & H2 & Hfiles & Hstamps).
  - reflexivity.
  - exists fs1, t1, ch, fs2, t2. done.
Defined.
End feed_monitor_rerun.

(** ** The entries extracted from a feed *)

Section feed_extraction.
Import monitor_rss_feed.


End feed_extraction.

Section feeds_apart.
Import monitor_rss_feed.

Lemma pretty_N_char_not_slash x : Ascii.eqb (pretty_N_char x) "/" = false.
Proof. unfold pretty_N_char. by repeat case_match. Qed.

Lemma pretty_N_go_slash_free x : ∀ s,
  slash_free s = true → slash_free (pretty_N_go x s) = true.
Proof.
  induction (N.lt_wf_0 x) as [x _ IH]; intros s Hs.
  destruct (decide (x = 0)%N) as [->|Hx].
  - by rewrite pretty_N_go_0.
  - rewrite pretty_N_go_step by lia. apply IH.
    + apply N.div_lt; lia.
    + cbn. by rewrite pretty_N_char_not_slash.
Qed.

Lemma pretty_nat_slash_free (n : nat) : slash_free (pretty n) = true.
Proof.
  unfold pretty, pretty_nat, pretty, pretty_N. case_decide; [done|].
  by apply pretty_N_go_slash_free.
Qed.

Lemma slash_free_split s1 : ∀ s2 a b,
  slash_free s1 = true → slash_free s2 = true →
  s1 +:+ String "/" a = s2 +:+ String "/" b → s1 = s2.
Proof.
  induction s1 as [|c s1 IH]; intros [|c2 s2] a b H1 H2 Heq.
  - done.
  - change (String "/" a = String c2 (s2 +:+ String "/" b)) in Heq.
    injection Heq as <- _. cbn in H2. done.
  - change (String c (s1 +:+ String "/" a) = String "/" b) in Heq.
    injection Heq as -> _. cbn in H1. done.
  - change (String c (s1 +:+ String "/" a) = String c2 (s2 +:+ String "/" b)) in Heq.
    injection Heq as -> Heq. cbn in H1, H2.
    apply andb_true_iff in H1 as [_ H1]. apply andb_true_iff in H2 as [_ H2].
    f_equal. by apply (IH s2 a b).
Qed.

Lemma feed_dir_file_inj dir i j name1 name2 :
  path_join (feed_dir dir i) name1 = path_join (feed_dir dir j) name2 → i = j.
Proof.
  unfold feed_dir, path_join. rewrite !string_app_assoc.
  intros H%string_app_inj.
  change ("/" +:+ "rss-content" +:+ "/" +:+ "feed-" +:+ pretty i +:+ "/" +:+ name1)
    with ("/rss-content/feed-" +:+ pretty i +:+ String "/" name1) in H.
  change ("/" +:+ "rss-content" +:+ "/" +:+ "feed-" +:+ pretty j +:+ "/" +:+ name2)
    with ("/rss-content/feed-" +:+ pretty j +:+ String "/" name2) in H.
  apply string_app_inj in H.
  apply slash_free_split in H; [|apply pretty_nat_slash_free..].
  by apply (inj pretty) in H.
Qed.

(** Each feed has a store of its own: processing the feed with index [i]
    changes no file in the directory of a feed with another index, so the
    previous entries another feed is compared with are the ones its own
    last run stored. *)
Theorem feeds_are_stored_apart
    (P : Platform) (D : Dumps) (strip_markup : string → string)
    (local_content_dir : string) (i : nat) (rss_feed_url : string)
    (feed : option Feed) (fs : FS) (t : nat) (fs' : FS) (t' : nat) (has_changes : bool) :
  process_feed P D strip_markup local_content_dir i rss_feed_url feed fs t
    = py.Ok (fs', t', has_changes) →
  ∀ j, j ≠ i →
    (∀ name, contents fs' !! path_join (feed_dir local_content_dir j) name
             = contents fs !! path_join (feed_dir local_content_dir j) name) ∧
    load_previous_entries P fs'
      (path_join (feed_dir local_content_dir j) "feed_entries.json")
    = load_previous_entries P fs
        (path_join (feed_dir local_content_dir j) "feed_entries.json").
Proof.
  intros Hrun j Hj. apply process_feed_frame in Hrun as (_ & Hc).
  assert (Hsame : ∀ name,
            contents fs' !! path_join (feed_dir local_content_dir j) name
            = contents fs !! path_join (feed_dir local_content_dir j) name).
  { intros name. apply Hc. intros name' Heq. by apply feed_dir_file_inj in Heq. }
  split; [done|]. unfold load_previous_entries, fs_read. by rewrite Hsame.
Qed.

Lemma feeds_are_stored_apart_witness :
  let P := sample_platform ∅ [] in
  ∃ fs' t' has_changes,
    process_feed P sample_dumps id "content" 0 "https://host/feed" (Some sample_feed)
      empty_fs 0 = py.Ok (fs', t', has_changes) ∧
    ∀ j, j ≠ 0 →
      (∀ name, contents fs' !! path_join (feed_dir "content" j) name
               = contents empty_fs !! path_join (feed_dir "content" j) name) ∧
      load_previous_entries P fs' (path_join (feed_dir "content" j) "feed_entries.json")
      = load_previous_entries P empty_fs
          (path_join (feed_dir "content" j) "feed_entries.json").
Proof.
  cbn zeta.
  destruct (process_feed (sample_platform ∅ []) sample_dumps id "content" 0
              "https://host/feed" (Some sample_feed) empty_fs 0)
    as [[[fs' t'] ch]|e] eqn:Hrun; [|vm_compute in Hrun; discriminate Hrun].
  exists fs', t', ch. split; [done|].
  exact (feeds_are_stored_apart (sample_platform ∅ []) sample_dumps id "content" 0
           "https://host/feed" (Some sample_feed) empty_fs 0 fs' t' ch Hrun).
Defined.
End feeds_apart.

(** ** The repository monitor run *)

Section traversal_invariant.
Import monitor_repo_directory.
Context (P : Platform) (ls : option string).
Context (I : Walk → Walk → Prop).
Hypothesis I_refl : ∀ w, I w w.
Hypothesis I_trans : ∀ w1 w2 w3, I w1 w2 → I w2 w3 → I w1 w3.
Hypothesis I_handle : ∀ item fetch relative_path w,
  I w (handle_file P ls item fetch relative_path w).1.

Lemma process_item_invariant n :
  ∀ current_path w, I w (process_item P ls current_path n w).1.
Proof.
  induction n as [item fetch|item fetch items IH] using node_listing_ind;
    intros current_path w.
  - cbn [process_item]. case_decide; [apply I_handle|]. by case_decide.
  - destruct (decide (cf_type item = "file")) as [Hf|Hf].
    + cbn [process_item]. rewrite decide_True by done. apply I_handle.
    + destruct (decide (cf_type item = "dir")) as [Hd|Hd].
      * rewrite process_item_dir by done. cbn [fst].
        generalize (if decide (current_path = "") then cf_name item
                    else (current_path +:+ "/" +:+ cf_name item)%string).
        intros rel. revert w. induction IH as [|n rest Hn _ IHrest]; intros w; [done|].
        cbn [process_contents].
        specialize (Hn rel w).
        destruct (process_item P ls rel n w) as [w1 [|]]; [done|].
        eapply I_trans; [exact Hn|apply IHrest].
      * cbn [process_item]. by rewrite !decide_False.
Qed.

Lemma process_contents_invariant current_path items :
  ∀ w, I w (process_contents P ls current_path items w).1.
Proof.
  induction items as [|n rest IH]; intros w; [done|].
  cbn [process_contents].
  pose proof (process_item_invariant n current_path w) as Hn.
  destruct (process_item P ls current_path n w) as [w1 [|]]; [done|].
  eapply I_trans; [exact Hn|apply IH].
Qed.
End traversal_invariant.

Section scan_frame.
Import monitor_repo_directory.

Lemma content_written_refl dir fs : content_written dir fs fs.
Proof. split; [done|]. intros p. by left. Qed.

Lemma content_written_trans dir fs1 fs2 fs3 :
  content_written dir fs1 fs2 → content_written dir fs2 fs3 → content_written dir fs1 fs3.
Proof.
  intros [Hl1 Hc1] [Hl2 Hc2]. split; [congruence|]. intros p.
  destruct (Hc2 p) as [Heq|Hw]; [|by right].
  rewrite Heq. apply Hc1.
Qed.

Lemma handle_file_written P ls item fetch relative_path w :
  content_written ls (w_fs w) (w_fs (handle_file P ls item fetch relative_path w).1).
Proof.
  unfold handle_file.
  destruct (should_process_file _ _); [|apply content_written_refl].
  destruct (download_file_metadata P fetch (w_tick w)) as [[info|] t'];
    [|apply content_written_refl].
  destruct ls as [dir|]; [|apply content_written_refl].
  destruct (download_file_content_for_commit fetch) as [content|] eqn:Hcontent;
    [|apply content_written_refl].
  destruct (py.truthy (Some content)) eqn:Htruthy; [|apply content_written_refl].
  cbn [default from_option id]. unfold save_file_locally, id.
  fold (content_path dir relative_path).
  destruct (fs_write (w_fs w) (content_path dir relative_path) content)
    as [fs'|] eqn:Hw; [|apply content_written_refl].
  cbn [fst w_fs]. unfold fs_write in Hw.
  destruct (decide (_ ∈ locked (w_fs w))); [done|]. injection Hw as <-.
  split; [done|]. intros p. cbn [contents].
  destruct (decide (p = content_path dir relative_path)) as [->|Hp].
  - right. exists dir, relative_path, content. split; [done|]. split; [done|].
    split; [by destruct content|]. apply lookup_insert_eq.
  - left. by rewrite lookup_insert_ne.
Qed.

Lemma get_directory_contents_written P ls root fs t :
  content_written ls fs (get_directory_contents P ls root fs t).1.2.
Proof.
  unfold get_directory_contents. destruct root as [|items|contents fetch].
  - apply content_written_refl.
  - pose proof (process_contents_invariant P ls
                  (λ w w', content_written ls (w_fs w) (w_fs w'))
                  (λ w, content_written_refl ls (w_fs w))
                  (λ w1 w2 w3, content_written_trans ls (w_fs w1) (w_fs w2) (w_fs w3))
                  (handle_file_written P ls) "" items
                  {| w_files := ∅; w_fs := fs; w_tick := t |}) as H.
    by destruct (process_contents P ls "" items _) as [w [|]].
  - pose proof (handle_file_written P ls contents fetch (cf_name contents)
                  {| w_files := ∅; w_fs := fs; w_tick := t |}) as H.
    by destruct (handle_file P ls contents fetch (cf_name contents) _) as [w [|]].
Qed.

Lemma content_written_snapshot d fs fs' :
  content_written (Some d) fs fs' →
  contents fs' !! snapshot_path d = contents fs !! snapshot_path d.
Proof.
  intros [_ Hc]. destruct (Hc (snapshot_path d)) as [Heq|(d' & rel & txt & Hd & Hp & _)];
    [done|]. injection Hd as <-. symmetry in Hp. by apply content_path_not_snapshot in Hp.
Qed.

(** The scan of the remote directory only ever adds or overwrites content
    files under [files/] of the local storage directory, each with a
    non-empty text: it deletes nothing, writes no empty file, and leaves
    the stored snapshot [files_data.json] as it is, so the previous
    snapshot loaded after the scan is the one stored before it.  Without a
    local storage directory it writes nothing. *)
Theorem scan_writes_only_content_files
    (P : Platform) (local_storage_path : option string) (root : root_contents)
    (fs : FS) (t : nat) :
  let fs' := (get_directory_contents P local_storage_path root fs t).1.2 in
  locked fs' = locked fs ∧
  (local_storage_path = None → fs' = fs) ∧
  (∀ p, contents fs' !! p ≠ contents fs !! p →
        ∃ dir rel txt, local_storage_path = Some dir ∧ p = content_path dir rel ∧
                       txt ≠ "" ∧ contents fs' !! p = Some txt) ∧
  (∀ dir, local_storage_path = Some dir →
          load_previous_files P fs' (snapshot_path dir)
          = load_previous_files P fs (snapshot_path dir)).
Proof.
  cbn zeta.
  pose proof (get_directory_contents_written P local_storage_path root fs t) as Hw.
  destruct (get_directory_contents P local_storage_path root fs t) as [[files fs'] t'].
  cbn [fst snd] in *. split; [apply Hw|]. split; [|split].
  - intros ->. destruct Hw as [Hl Hc]. destruct fs' as [c' l'], fs as [c l].
    cbn in *. subst l'. f_equal. apply map_eq. intros p.
    destruct (Hc p) as [Heq|(d & _ & _ & Hd & _)]; done.
  - intros p Hp. destruct Hw as [_ Hc]. by destruct (Hc p) as [Heq|Hex].
  - intros dir ->. unfold load_previous_files, fs_read.
    by rewrite (content_written_snapshot dir fs fs' Hw).
Qed.
End scan_frame.

Section repo_monitor_run.
Import monitor_repo_directory.

Lemma length_pos_elem {A : Type} (l : list A) : 0 < length l ↔ ∃ x, x ∈ l.
Proof.
  destruct l as [|x l]; cbn.
  - split; [lia|]. by intros [x ?%elem_of_nil].
  - split; [|lia]. intros _. exists x. by left.
Qed.

Lemma has_changes_iff old new :
  let r := compare_file_metadata old new in
  bool_decide (0 < new_count (summary r)) || bool_decide (0 < updated_count (summary r))
    = true ↔
  ∃ k info, new !! k = Some info ∧ classify old k info ≠ Unchanged.
Proof.
  cbn zeta. rewrite orb_true_iff, !bool_decide_eq_true.
  change (new_count (summary (compare_file_metadata old new)))
    with (length (new_files (compare_file_metadata old new))).
  change (updated_count (summary (compare_file_metadata old new)))
    with (length (updated_files (compare_file_metadata old new))).
  destruct (compare_lists old new) as (-> & -> & _).
  rewrite !length_pos_elem. split.
  - intros [[k Hk]|[k Hk]]; apply elem_of_keys_with in Hk as (m & Hm & Hc);
      exists k, m; by rewrite Hc.
  - intros (k & m & Hm & Hc). destruct (classify old k m) eqn:Hv; [| |done].
    + left. exists k. apply elem_of_keys_with. by exists m.
    + right. exists k. apply elem_of_keys_with. by exists m.
Qed.

(** What a run of the repository monitor leaves behind.  When the scan
    finds nothing (also when the remote directory cannot be read) the
    stored snapshot is left as it is and no change is reported.  Otherwise
    the snapshot becomes the scanned table, and [changes_detected] is true
    exactly when some scanned file is new or updated with respect to the
    snapshot that was stored before the run. *)
Theorem repo_monitor_run
    (P : Platform) (json_dump_changes : ChangesData → string) (root : root_contents)
    (local_content_dir : string) (fs : FS) (t : nat)
    (fs' : FS) (t' : nat) (changes_detected : bool) :
  main P json_dump_changes root local_content_dir fs t
    = py.Ok (fs', t', changes_detected) →
  let repo := path_join local_content_dir "repo-content" in
  let current := (get_directory_contents P (Some repo) root fs t).1.1 in
  let previous := load_previous_files P fs (snapshot_path repo) in
  (current = ∅ →
   changes_detected = false ∧
   fs_read fs' (snapshot_path repo) = fs_read fs (snapshot_path repo)) ∧
  (current ≠ ∅ →
   fs_read fs' (snapshot_path repo) = Some (json_dump_files P current) ∧
   (changes_detected = true ↔
    ∃ k info, current !! k = Some info ∧ classify previous k info ≠ Unchanged)).
Proof.
  unfold main. cbn zeta.
  set (repo := path_join local_content_dir "repo-content").
  pose proof (get_directory_contents_written P (Some repo) root fs t) as Hw.
  destruct (get_directory_contents P (Some repo) root fs t) as [[current fs1] t1].
  cbn [fst snd] in *.
  pose proof (content_written_snapshot repo fs fs1 Hw) as Hsnap.
  case_decide as Hcur.
  - intros [= <- <- <-]. split; [|done]. intros _. by split.
  - fold (snapshot_path repo). unfold main_compare. fold (snapshot_path repo).
    assert (Hprev : load_previous_files P fs1 (snapshot_path repo)
                    = load_previous_files P fs (snapshot_path repo)).
    { unfold load_previous_files, fs_read. by rewrite Hsnap. }
    rewrite Hprev.
    destruct (fs_write fs1 _ _) as [fs2|] eqn:H1; [|done].
    destruct (fs_write fs2 _ _) as [fs3|] eqn:H2; [|done].
    intros [= <- <- <-]. split; [done|]. intros _.
    apply fs_write_Some in H1 as (_ & _ & Hc1).
    apply fs_write_Some in H2 as (_ & _ & Hc2).
    split.
    + unfold fs_read. rewrite Hc2, lookup_insert_ne by (by intros ?%path_join_inj).
      by rewrite Hc1, lookup_insert_eq.
    + apply has_changes_iff.
Qed.

Lemma repo_monitor_run_witness :
  let P := sample_platform ∅ [] in
  let repo := path_join "content" "repo-content" in
  let current := (get_directory_contents P (Some repo) sample_root empty_fs 0).1.1 in
  let previous := load_previous_files P empty_fs (snapshot_path repo) in
  ∃ fs' t' changes_detected,
    main P (λ _, "changes") sample_root "content" empty_fs 0
      = py.Ok (fs', t', changes_detected) ∧
    (current = ∅ →
     changes_detected = false ∧
     fs_read fs' (snapshot_path repo) = fs_read empty_fs (snapshot_path repo)) ∧
    (current ≠ ∅ →
     fs_read fs' (snapshot_path repo) = Some (json_dump_files P current) ∧
     (changes_detected = true ↔
      ∃ k info, current !! k = Some info ∧ classify previous k info ≠ Unchanged)).
Proof.
  cbn zeta.
  destruct (main (sample_platform ∅ []) (λ _, "changes") sample_root "content" empty_fs 0)
    as [[[fs' t'] ch]|e] eqn:Hrun; [|vm_compute in Hrun; discriminate Hrun].
  exists fs', t', ch. split; [done|].
  exact (repo_monitor_run (sample_platform ∅ []) (λ _, "changes") sample_root "content"
           empty_fs 0 fs' t' ch Hrun).
Defined.
End repo_monitor_run.
